(** * The request pipeline of the YooKassa connector

    A shallow embedding of [client/connector.ts]: the retry
    classification [isRetryableError], the exponential backoff, and the
    method [Connector.request] with its attempt loop, its idempotence key
    and the normalisation of every outcome into an [ApiResponse].

    The HTTP client (the rate limited axios instance), the UUID generator,
    the timer behind [delay] and the console are the outside world: they
    are threaded through the embedding as an explicit [World], and every
    interaction is recorded in a trace. *)

From stdpp Require Import gmap strings list fin_maps pretty.
From Stdlib Require Import QArith Qround.
From Equations Require Import Equations.

#[local] Set Warnings "-register-all".
#[local] Open Scope Z_scope.

(** ** JavaScript values *)

(** Response bodies, request payloads and error payloads are plain
    JavaScript values.  The numbers inside them, the HTTP statuses, the
    attempt counter and the milliseconds are integers.  An array is an
    object whose keys are its indices and [length]. *)
Inductive JsValue : Type :=
| JUndefined
| JNull
| JBool (b : bool)
| JNumber (n : Z)
| JString (s : string)
| JObject (fields : gmap string JsValue).

(** The only exception the body of [request] could raise by itself. *)
Inductive JsException : Type :=
| TypeError (msg : string).

(** Conversion of a value to a boolean, as [if], [&&], [||] and [?:] do. *)
Definition truthy (v : JsValue) : bool :=
  match v with
  | JUndefined | JNull => false
  | JBool b => b
  | JNumber n => negb (n =? 0)
  | JString s => negb (String.eqb s EmptyString)
  | JObject _ => true
  end.

(** [typeof v] *)
Definition typeof (v : JsValue) : string :=
  match v with
  | JUndefined => "undefined"
  | JNull => "object"
  | JBool _ => "boolean"
  | JNumber _ => "number"
  | JString _ => "string"
  | JObject _ => "object"
  end.

(** [key in v]: a [TypeError] unless [v] is an object. *)
Definition js_in (key : string) (v : JsValue) : JsException + bool :=
  match v with
  | JObject fields => inr (bool_decide (is_Some (fields !! key)))
  | _ => inl (TypeError "Cannot use 'in' operator to search for a key in a primitive")
  end.

(** [v.key]: a [TypeError] on [null] and [undefined], [undefined] for a
    missing property. *)
Definition js_get (key : string) (v : JsValue) : JsException + JsValue :=
  match v with
  | JUndefined | JNull => inl (TypeError "Cannot read properties of undefined")
  | JObject fields => inr (default JUndefined (fields !! key))
  | _ => inr JUndefined
  end.

(** [v === s] for a string literal [s]. *)
Definition js_strict_eq_string (v : JsValue) (s : string) : bool :=
  match v with
  | JString s' => String.eqb s' s
  | _ => false
  end.

(** [a || b] on strings, where [a] may be [undefined]. *)
Definition str_or (a : option string) (b : string) : string :=
  match a with
  | Some s => if String.eqb s EmptyString then b else s
  | None => b
  end.

(** ** What axios hands back *)

(** [AxiosResponse]: the fields that [request] reads. *)
Record AxiosResponse : Type := mkResponse {
  status : Z;
  statusText : string;
  data : JsValue
}.

(** [AxiosError]: [response] is absent when nothing came back from the
    server; [code] is the transport's error code, when it has one.  Any
    other [Error] that the client rejects with reads the same way: no
    [response], perhaps no [code], a [message]. *)
Record AxiosError : Type := mkError {
  response : option AxiosResponse;
  code : option string;
  message : string
}.


(** ** Constants *)

Definition DEFAULT_TIMEOUT : Z := 5000.
Definition DEFAULT_RETRIES : Z := 5.
Definition RETRY_DELAY : Z := 1000.

(** ** Retry classification *)

(** [isRetryableError]: network errors, server errors (5xx) and
    429 Too Many Requests. *)
Definition isRetryableError (error : AxiosError) : bool :=
  match response error with
  | None => true
  | Some r =>
      if (status r >=? 500) && (status r <? 600) then true
      else if status r =? 429 then true
      else false
  end.

(** ** Requests and results *)

Inductive Method : Type := GET | POST | DELETE.

Definition method_eqb (a b : Method) : bool :=
  match a, b with
  | GET, GET | POST, POST | DELETE, DELETE => true
  | _, _ => false
  end.

(** [RequestOpts]: [params] and [data] are [JUndefined] when left out;
    [requestId] is optional. *)
Record RequestOpts : Type := mkOpts {
  method : Method;
  endpoint : string;
  params : JsValue;
  opts_data : JsValue;
  requestId : option string
}.

(** The configuration object passed to [axiosInstance.request]. *)
Record AxiosRequestConfig : Type := mkConfig {
  cfg_method : Method;
  cfg_url : string;
  cfg_data : JsValue;
  cfg_params : JsValue;
  cfg_headers : gmap string string
}.

(** [ApiResponse<Res> = BadApiResponse | GoodApiResponse<Res>].  The error
    payload is the body of the response as it came (the cast to
    [YooKassaErrResponse] checks nothing), or an object the connector
    builds. *)
Inductive ApiResponse : Type :=
| GoodApiResponse (data : JsValue) (requestId : string)
| BadApiResponse (errorData : JsValue) (requestId : string).

(** The [success] tag and the fields of the result object. *)
Definition success (r : ApiResponse) : string :=
  match r with
  | GoodApiResponse _ _ => "OK"
  | BadApiResponse _ _ => "NO_OK"
  end.

Definition resultData (r : ApiResponse) : option JsValue :=
  match r with
  | GoodApiResponse d _ => Some d
  | BadApiResponse _ _ => None
  end.

Definition resultErrorData (r : ApiResponse) : option JsValue :=
  match r with
  | GoodApiResponse _ _ => None
  | BadApiResponse e _ => Some e
  end.

Definition resultRequestId (r : ApiResponse) : string :=
  match r with
  | GoodApiResponse _ k | BadApiResponse _ k => k
  end.

(** [attempt <= retries] and [attempt < retries]: the counter of the
    loop, a whole number, against a number that need not be one. *)
Definition jsLe (a : Z) (q : Q) : bool := Qle_bool (inject_Z a) q.

Definition jsLt (a : Z) (q : Q) : bool := negb (Qle_bool q (inject_Z a)).

(** The part of the [Connector] instance that [request] reads.
    [retries] is [init.retries ?? DEFAULT_RETRIES]: a number that the
    constructor takes as it is given, so it may be negative and it need
    not be whole.  It is a finite number here, a rational: [NaN] makes
    both tests of the loop false, as a negative number does, and with
    [Infinity] the loop has no last attempt. *)
Record Connector : Type := mkConnector {
  retries : Q;
  debug : bool
}.

(** ** The outside world *)

(** What [request] itself does to the outside: a call of the client, a
    line that its own [console.log] prints, a wait.  What the client
    prints on its side (the logging interceptors that the constructor
    installs with [debug]) belongs to the client and is not recorded. *)
Inductive Event : Type :=
| EvRequest (cfg : AxiosRequestConfig)
| EvLog (line : string)
| EvDelay (ms : Z).

Definition requestsOf (tr : list Event) : list AxiosRequestConfig :=
  omap (fun ev => match ev with EvRequest cfg => Some cfg | _ => None end) tr.

Definition delaysOf (tr : list Event) : list Z :=
  omap (fun ev => match ev with EvDelay ms => Some ms | _ => None end) tr.

(** Exponential backoff, [RETRY_DELAY * Math.pow(2, attempt)]: the wait
    after the failure of [attempt].  The loop counts [attempt] from 0. *)
Definition waitTime (attempt : Z) : Z := RETRY_DELAY * 2 ^ attempt.

(** [code] of the error object built inside the loop. *)
Definition synthCode (axiosError : AxiosError) : string :=
  let statusCode := status <$> response axiosError in
  match statusCode with
  | Some s =>
      if truthy (JNumber s) then "HTTP_" +:+ pretty s
      else str_or (code axiosError) "NETWORK_ERROR"
  | None => str_or (code axiosError) "NETWORK_ERROR"
  end.

(** [description] of the error object built inside the loop. *)
Definition synthDescription (axiosError : AxiosError) : string :=
  let statusCode := status <$> response axiosError in
  let statusText := str_or (statusText <$> response axiosError) (message axiosError) in
  match statusCode with
  | Some s =>
      if truthy (JNumber s) then "HTTP " +:+ pretty s +:+ ": " +:+ statusText
      else str_or (Some (message axiosError)) "Network error occurred"
  | None => str_or (Some (message axiosError)) "Network error occurred"
  end.

Definition errorObject (id code description : string) : JsValue :=
  JObject {[ "type" := JString "error";
             "id" := JString id;
             "code" := JString code;
             "description" := JString description ]}.

(** The error object built inside the loop (network error, or a response
    that is not an error of the API). *)
Definition synthErrorData (idempotenceKey : string) (axiosError : AxiosError) : JsValue :=
  errorObject idempotenceKey (synthCode axiosError) (synthDescription axiosError).

(** The error object built after the loop. *)
Definition exhaustedErrorData (idempotenceKey : string) (lastError : option AxiosError) : JsValue :=
  errorObject idempotenceKey
    (str_or (lastError ≫= code) "RETRY_EXHAUSTED")
    (str_or (message <$> lastError) "All retry attempts failed").

(** A run of [n] zeros. *)
Fixpoint zeros (n : nat) : string :=
  match n with
  | O => EmptyString
  | S n' => String.append "0" (zeros n')
  end.

(** The least [k <= fuel] such that [den] divides [10 ^ k]. *)
Fixpoint decimalPlaces (fuel : nat) (k : nat) (den : Z) : option nat :=
  if (10 ^ Z.of_nat k) mod den =? 0 then Some k
  else match fuel with
       | O => None
       | S fuel' => decimalPlaces fuel' (S k) den
       end.

(** A number in a template string.  Whole numbers print in decimal, as
    JavaScript prints them below 10^21; a number with a finite decimal
    expansion prints with its decimals; any other rational is written as
    a fraction. *)
Definition showNumber (q : Q) : string :=
  let r := Qred q in
  let n := Qnum r in
  let d := Z.pos (Qden r) in
  match decimalPlaces 30 0 d with
  | Some O => pretty n
  | Some k =>
      let scaled := Z.abs n * (10 ^ Z.of_nat k / d) in
      let whole := scaled / 10 ^ Z.of_nat k in
      let frac := pretty (scaled mod 10 ^ Z.of_nat k) in
      (if n <? 0 then "-" else EmptyString)
        +:+ pretty whole +:+ "." +:+ zeros (k - String.length frac) +:+ frac
  | None => pretty n +:+ "/" +:+ pretty d
  end.

(** The debug line printed before a wait. *)
Definition retryLogLine (self : Connector) (attempt : Z) : string :=
  "[YooKassa] Retry attempt " +:+ pretty (attempt + 1) +:+ "/" +:+ showNumber (retries self)
    +:+ ", waiting " +:+ pretty (waitTime attempt) +:+ "ms...".

(** The pure reading of the test on the body of a failed response: an
    object whose [type] is the string ["error"]. *)
Definition validEnvelope (responseData : JsValue) : bool :=
  match responseData with
  | JObject fields =>
      match fields !! "type" with
      | Some (JString s) => String.eqb s "error"
      | _ => false
      end
  | _ => false
  end.

(** [axiosError.response?.data]: the body of the response, [undefined]
    when there is no response. *)
Definition responseDataOf (axiosError : AxiosError) : JsValue :=
  default JUndefined (data <$> response axiosError).

(** A test together with the fact of its outcome, for the loop condition. *)
Definition inspect {A : Type} (x : A) : {y : A | x = y} := exist _ x eq_refl.

Section Pipeline.

(** The rate limited axios instance, as a state machine: one call of
    [axiosInstance.request] either rejects with an error or resolves with
    a response.  [randomUUID] draws from a generator. *)
Variable T : Type.
Variable send : T -> AxiosRequestConfig -> (AxiosError + AxiosResponse) * T.
Variable G : Type.
Variable genUUID : G -> string * G.

Record World : Type := mkWorld {
  transport : T;
  entropy : G;
  trace : list Event
}.

(** Computations of the connector: they change the world and end with a
    value or with an uncaught exception. *)
Definition M (A : Type) : Type := World -> (JsException + A) * World.

Definition ret {A} (a : A) : M A := fun w => (inr a, w).

Definition throw {A} (e : JsException) : M A := fun w => (inl e, w).

Definition bind {A B} (m : M A) (k : A -> M B) : M B :=
  fun w =>
    match m w with
    | (inr a, w') => k a w'
    | (inl e, w') => (inl e, w')
    end.

Definition lift {A} (r : JsException + A) : M A :=
  match r with
  | inr a => ret a
  | inl e => throw e
  end.

#[local] Notation "x <- m ;; k" := (bind m (fun x => k))
  (at level 100, m at next level, right associativity).
#[local] Notation "m ;; k" := (bind m (fun _ => k))
  (at level 100, right associativity).

Definition emit (ev : Event) : M unit :=
  fun w => (inr tt, mkWorld (transport w) (entropy w) (trace w ++ [ev])).

(** [crypto.randomUUID()] *)
Definition randomUUID : M string :=
  fun w =>
    let (u, g) := genUUID (entropy w) in
    (inr u, mkWorld (transport w) g (trace w)).

(** [await this.axiosInstance.request(cfg)] under [try]: the rejection is
    handed to the [catch] block as a value. *)
Definition axiosRequest (cfg : AxiosRequestConfig) : M (AxiosError + AxiosResponse) :=
  fun w =>
    let (out, t) := send (transport w) cfg in
    (inr out, mkWorld t (entropy w) (trace w ++ [EvRequest cfg])).

(** [await delay(ms)] *)
Definition delay (ms : Z) : M unit := emit (EvDelay ms).

(** [console.log(line)] *)
Definition consoleLog (line : string) : M unit := emit (EvLog line).

(** [responseData && typeof responseData === 'object' &&
    'type' in responseData && responseData.type === 'error'], with the
    short circuit of [&&]. *)
Definition isValidYooKassaError (responseData : JsValue) : M bool :=
  if negb (truthy responseData) then ret false
  else if negb (String.eqb (typeof responseData) "object") then ret false
  else
    has <- lift (js_in "type" responseData) ;;
    if negb has then ret false
    else
      ty <- lift (js_get "type" responseData) ;;
      ret (js_strict_eq_string ty "error").

(** How one turn of the loop ends: with [return], or with [continue]
    (then [lastError] holds the error of this attempt). *)
Inductive Step : Type :=
| Return (r : ApiResponse)
| Continue (lastError : AxiosError).

Definition requestConfig (opts : RequestOpts) (idempotenceKey : string) : AxiosRequestConfig :=
  {| cfg_method := method opts;
     cfg_url := endpoint opts;
     cfg_data := if method_eqb (method opts) POST then opts_data opts else JUndefined;
     cfg_params := params opts;
     cfg_headers := {[ "Idempotence-Key" := idempotenceKey ]} |}.

(** The body of the [for] loop: the [try] and its [catch]. *)
Definition attemptOnce (self : Connector) (opts : RequestOpts)
    (idempotenceKey : string) (attempt : Z) : M Step :=
  out <- axiosRequest (requestConfig opts idempotenceKey) ;;
  match out with
  | inr resp =>
      ret (Return (GoodApiResponse (data resp) idempotenceKey))
  | inl axiosError =>
      let responseData := responseDataOf axiosError in
      valid <- isValidYooKassaError responseData ;;
      (* a valid error of the API that is not retryable: returned at once *)
      if valid && negb (isRetryableError axiosError) then
        ret (Return (BadApiResponse responseData idempotenceKey))
      (* not the last attempt, and the error is retryable *)
      else if jsLt attempt (retries self) && isRetryableError axiosError then
        (if debug self then consoleLog (retryLogLine self attempt) else ret tt) ;;
        delay (waitTime attempt) ;;
        ret (Continue axiosError)
      (* the last attempt, or an error that is not retryable *)
      else if valid then
        ret (Return (BadApiResponse responseData idempotenceKey))
      (* network error, or a response that is not valid (HTML, proxy error) *)
      else
        ret (Return (BadApiResponse (synthErrorData idempotenceKey axiosError)
                                    idempotenceKey))
  end.

(** How the loop ends: with a [return] from its body, or because its
    condition failed. *)
Inductive LoopResult : Type :=
| Returned (r : ApiResponse)
| Exhausted (lastError : option AxiosError).

(** [for (let attempt = 0; attempt <= this.retries; attempt++) { ... }],
    entered at [attempt]. *)
Equations? attemptLoop (self : Connector) (opts : RequestOpts) (idempotenceKey : string)
    (attempt : Z) (lastError : option AxiosError) : M LoopResult
    by wf (Z.to_nat (Qfloor (retries self) + 1 - attempt)) lt :=
  attemptLoop self opts idempotenceKey attempt lastError
    with inspect (jsLe attempt (retries self)) := {
    | exist _ true Hle =>
        step <- attemptOnce self opts idempotenceKey attempt ;;
        match step with
        | Return r => ret (Returned r)
        | Continue axiosError =>
            attemptLoop self opts idempotenceKey (attempt + 1) (Some axiosError)
        end
    | exist _ false Hgt => ret (Exhausted lastError) }.
Proof.
  apply Qle_bool_iff, Qfloor_resp_le in Hle. rewrite Qfloor_Z in Hle. lia.
Qed.

(** [Connector.request] *)
Definition request (self : Connector) (opts : RequestOpts) : M ApiResponse :=
  idempotenceKey <- match requestId opts with
                    | Some k => ret k
                    | None => randomUUID
                    end ;;
  r <- attemptLoop self opts idempotenceKey 0 None ;;
  match r with
  | Returned res => ret res
  | Exhausted lastError =>
      ret (BadApiResponse (exhaustedErrorData idempotenceKey lastError) idempotenceKey)
  end.

(** The world after one call of the client, and after the debug line and
    the wait that precede the next attempt. *)
Definition afterRequest (cfg : AxiosRequestConfig) (w : World) : World :=
  snd (axiosRequest cfg w).

Definition afterBackoff (self : Connector) (attempt : Z) (w : World) : World :=
  snd (((if debug self then consoleLog (retryLogLine self attempt) else ret tt) ;;
        delay (waitTime attempt)) w).

(** The key that [request] settles on: [opts.requestId ?? randomUUID()]. *)
Definition idempotenceKeyOf (opts : RequestOpts) (w : World) : string :=
  match requestId opts with
  | Some k => k
  | None => fst (genUUID (entropy w))
  end.

(** The generator after the key has been settled. *)
Definition entropyAfterKey (opts : RequestOpts) (w : World) : G :=
  match requestId opts with
  | Some _ => entropy w
  | None => snd (genUUID (entropy w))
  end.

(** The world once the key is settled: only the generator has moved. *)
Definition afterKey (opts : RequestOpts) (w : World) : World :=
  mkWorld (transport w) (entropyAfterKey opts w) (trace w).

(** The client after [n] calls with the same configuration, and what it
    answers to the next one. *)
Fixpoint afterCalls (n : nat) (t : T) (cfg : AxiosRequestConfig) : T :=
  match n with
  | O => t
  | S n' => afterCalls n' (snd (send t cfg)) cfg
  end.

Definition outcomeAt (n : nat) (t : T) (cfg : AxiosRequestConfig) : AxiosError + AxiosResponse :=
  fst (send (afterCalls n t cfg) cfg).

End Pipeline.

Arguments mkWorld {T G} _ _ _.
Arguments transport {T G} _.
Arguments entropy {T G} _.
Arguments trace {T G} _.
Arguments ret {T G A} _ _.
Arguments attemptOnce {T} send {G} _ _ _ _ _.
Arguments attemptLoop {T} send {G} _ _ _ _ _ _.
Arguments isValidYooKassaError {T G} _ _.
Arguments request {T} send {G} genUUID _ _ _.
Arguments idempotenceKeyOf {T G} genUUID _ _.
Arguments entropyAfterKey {T G} genUUID _ _.
Arguments afterKey {T G} genUUID _ _.
Arguments afterCalls {T} send _ _ _.
Arguments afterRequest {T} send {G} _ _.
Arguments afterBackoff {T G} _ _ _.
Arguments outcomeAt {T} send _ _ _.

(** ** Transports used in the examples *)

(** A client that counts its calls and answers each one with the same
    rejection, and one that rejects its first [k] calls and then
    resolves. *)
Definition alwaysFails (e : AxiosError) (n : nat) (cfg : AxiosRequestConfig)
  : (AxiosError + AxiosResponse) * nat := (inl e, S n).

Definition failsThenSucceeds (k : nat) (e : AxiosError) (resp : AxiosResponse)
    (n : nat) (cfg : AxiosRequestConfig) : (AxiosError + AxiosResponse) * nat :=
  (if (n <? k)%nat then inl e else inr resp, S n).

(** A generator that hands out one fixed UUID. *)
Definition uuid0 : string := "4f6c2a1e-9b1d-4c38-8a55-0c1d2e3f4a5b".

Definition fixedUUID (g : unit) : string * unit := (uuid0, g).

Definition world0 : World nat unit := mkWorld 0%nat tt [].

Definition listPayments : RequestOpts :=
  mkOpts GET "/payments" JUndefined JUndefined None.

Definition createPayment : RequestOpts :=
  mkOpts POST "/payments" JUndefined
    (JObject {[ "capture" := JBool true ]}) (Some "order-17").

(** The payment that the API answers with. *)
Definition paymentCreated : AxiosResponse :=
  mkResponse 200 "OK" (JObject {[ "id" := JString "2d0f9c1b"; "status" := JString "pending" ]}).

(** 503 from the gateway with an HTML page. *)
Definition html503 : AxiosError :=
  mkError (Some (mkResponse 503 "Service Unavailable" (JString "<html>503</html>")))
          (Some "ERR_BAD_RESPONSE") "Request failed with status code 503".

(** 404 from a proxy with an HTML page. *)
Definition html404 : AxiosError :=
  mkError (Some (mkResponse 404 "Not Found" (JString "<html>404</html>")))
          (Some "ERR_BAD_REQUEST") "Request failed with status code 404".

(** 400 with the error object of the API. *)
Definition invalidRequestFields : gmap string JsValue :=
  {[ "type" := JString "error";
     "id" := JString "ab5a11cd-13cc-4e33-af8b-75a74e18dd09";
     "code" := JString "invalid_request";
     "description" := JString "Idempotence key duplicated" ]}.

Definition invalidRequestBody : JsValue := JObject invalidRequestFields.

Definition badRequest : AxiosResponse :=
  mkResponse 400 "Bad Request" invalidRequestBody.

Definition api400 : AxiosError :=
  mkError (Some badRequest) (Some "ERR_BAD_REQUEST") "Request failed with status code 400".

(** A connection that is refused: no response, and here neither a code
    nor a message. *)
Definition noResponse : AxiosError := mkError None None EmptyString.


(** The value of a field of an object. *)
Definition field (key : string) (v : JsValue) : option JsValue :=
  match v with
  | JObject fields => fields !! key
  | _ => None
  end.

(** ** Reading a trace *)

(** The trace without the lines that [request] prints, these lines
    alone, and the sum of the waits that [request] asks for. *)
Definition withoutLogs (tr : list Event) : list Event :=
  List.filter (fun ev => match ev with EvLog _ => false | _ => true end) tr.

Definition logsOf (tr : list Event) : list string :=
  omap (fun ev => match ev with EvLog line => Some line | _ => None end) tr.

Definition totalWait (tr : list Event) : Z := foldr Z.add 0 (delaysOf tr).

(** ** Two clients *)

(** A connector built with [debug] has a client with the logging
    interceptors installed, a connector built without has a plain one.
    [sameAnswers send1 send2 R]: from states that [R] relates, the two
    clients give the same answer to every request, and the states they
    are left in are related again. *)
Definition sameAnswers {T1 T2 : Type}
    (send1 : T1 -> AxiosRequestConfig -> (AxiosError + AxiosResponse) * T1)
    (send2 : T2 -> AxiosRequestConfig -> (AxiosError + AxiosResponse) * T2)
    (R : T1 -> T2 -> Prop) : Prop :=
  forall (t1 : T1) (t2 : T2) (cfg : AxiosRequestConfig),
    R t1 t2 ->
    fst (send1 t1 cfg) = fst (send2 t2 cfg) /\
    R (snd (send1 t1 cfg)) (snd (send2 t2 cfg)).

(** ** The constructor *)

(** The character [/]. *)
Definition slash : Ascii.ascii :=
  Eval cbv in match "/" with String c _ => c | EmptyString => Ascii.zero end.

(** [(...).replace(/\/+$/, '')]: the pattern matches one run of slashes
    that reaches the end of the string, and the run is removed. *)
Fixpoint stripTrailingSlashes (s : string) : string :=
  match s with
  | EmptyString => EmptyString
  | String c rest =>
      match stripTrailingSlashes rest with
      | EmptyString => if Ascii.eqb c slash then EmptyString else String c EmptyString
      | kept => String c kept
      end
  end.

(** A run of [k] slashes. *)
Fixpoint slashes (k : nat) : string :=
  match k with
  | O => EmptyString
  | S k' => String slash (slashes k')
  end.

(** [a ?? b] *)
Definition nullish {A : Type} (a : option A) (b : A) : A :=
  match a with
  | Some x => x
  | None => b
  end.

(** [ConnectorOpts], with the names of the source. *)
Module Init.
Record ConnectorOpts : Type := mkInit {
  shop_id : string;
  secret_key : string;
  endpoint : option string;
  debug : option bool;
  redirect_url : option string;
  maxRPS : option Z;
  timeout : option Z;
  retries : option Q;
  proxy : option string
}.
End Init.

(** The configuration handed to [axios.create].  An agent is known by
    the proxy URL it was built for. *)
Record AxiosDefaults : Type := mkDefaults {
  baseURL : string;
  requestTimeout : Z;
  authUsername : string;
  authPassword : string;
  defaultHeaders : gmap string string;
  builtinProxy : bool;
  httpsAgent : option string;
  httpAgent : option string
}.

(** The fields of a [Connector] after its constructor has run:
    [rateLimitRPS] is the limit given to [rateLimit], [loggers] tells
    whether the logging interceptors were installed. *)
Record ConnectorInstance : Type := mkInstance {
  instEndpoint : string;
  instDebug : bool;
  instMaxRPS : Z;
  instTimeout : Z;
  instRetries : Q;
  axiosConfig : AxiosDefaults;
  rateLimitRPS : Z;
  loggers : bool
}.

Definition DEFAULT_ENDPOINT : string := "https://api.yookassa.ru/v3".

Section Construction.

(** Whether [new HttpsProxyAgent(url)] accepts the string it is given:
    that is the business of the agent's library. *)
Variable acceptsProxy : string -> bool.

(** [init.proxy ? new HttpsProxyAgent(init.proxy) : undefined]: no agent
    without a proxy (or with the empty string), and an exception when the
    agent refuses the URL. *)
Definition proxyAgent (proxy : option string) : JsException + option string :=
  match proxy with
  | Some url =>
      if String.eqb url EmptyString then inr None
      else if acceptsProxy url then inr (Some url)
      else inl (TypeError "Invalid URL")
  | None => inr None
  end.

(** [constructor(init: ConnectorOpts)] *)
Definition newConnector (init : Init.ConnectorOpts) : JsException + ConnectorInstance :=
  let endpoint := stripTrailingSlashes (str_or (Init.endpoint init) DEFAULT_ENDPOINT) in
  let debug := nullish (Init.debug init) false in
  let maxRPS := nullish (Init.maxRPS init) 5 in
  let timeout := nullish (Init.timeout init) DEFAULT_TIMEOUT in
  let retries := nullish (Init.retries init) (inject_Z DEFAULT_RETRIES) in
  match proxyAgent (Init.proxy init), proxyAgent (Init.proxy init) with
  | inr httpsAgent, inr httpAgent =>
      inr {| instEndpoint := endpoint;
             instDebug := debug;
             instMaxRPS := maxRPS;
             instTimeout := timeout;
             instRetries := retries;
             axiosConfig :=
               {| baseURL := endpoint;
                  requestTimeout := timeout;
                  authUsername := Init.shop_id init;
                  authPassword := Init.secret_key init;
                  defaultHeaders := {[ "Content-Type" := "application/json";
                                       "User-Agent" := "awardix/yookassa-sdk" ]};
                  builtinProxy := false;
                  httpsAgent := httpsAgent;
                  httpAgent := httpAgent |};
             rateLimitRPS := maxRPS;
             loggers := debug |}
  | inl exn, _ | _, inl exn => inl exn
  end.

End Construction.

(** What [request] reads of an instance. *)
Definition connectorOf (c : ConnectorInstance) : Connector :=
  mkConnector (instRetries c) (instDebug c).

(** An agent library that takes every URL. *)
Definition anyProxy (url : string) : bool := true.

(** Only the two credentials, everything else left out. *)
Definition minimalInit (shop secret : string) : Init.ConnectorOpts :=
  Init.mkInit shop secret None None None None None None None.

(** ** The table of endpoints *)

Record EndpointInfo : Type := mkEndpoint {
  ep_method : string;
  ep_endpoint : string;
  ep_description : option string
}.

(** [endpoints]: resource, then operation. *)
Definition endpoints : list (string * list (string * EndpointInfo)) :=
  [ ("refunds",
     [ ("create", mkEndpoint "POST" "/refunds" (Some "Создание возврата"));
       ("list", mkEndpoint "GET" "/refunds" (Some "Список возвратов"));
       ("info", mkEndpoint "GET" "/refunds/{refund_id}" (Some "Информация о возврате")) ]);
    ("payments",
     [ ("create", mkEndpoint "POST" "/payments" None);
       ("list", mkEndpoint "GET" "/payments" None);
       ("info", mkEndpoint "GET" "/payments/{payment_id}" None);
       ("capture", mkEndpoint "POST" "/payments/{payment_id}/capture" None);
       ("cancel", mkEndpoint "POST" "/payments/{payment_id}/cancel" None) ]);
    ("receipts",
     [ ("create", mkEndpoint "POST" "/receipts" (Some "Создание чека"));
       ("list", mkEndpoint "GET" "/receipts" (Some "Список чеков"));
       ("info", mkEndpoint "GET" "/receipts/{receipt_id}" (Some "Информация о чеке")) ]) ].

(** Every entry of the table. *)
Definition allEndpoints : list EndpointInfo :=
  flat_map (fun resource => snd <$> snd resource) endpoints.

(** ** More transports for the examples *)

(** 429 with the error object of the API. *)
Definition tooManyRequestsBody : JsValue :=
  JObject {[ "type" := JString "error";
             "id" := JString "7c1f0c7e-55d0-4a3e-9c0b-1b5c0e8d2f11";
             "code" := JString "too_many_requests";
             "description" := JString "Wait and retry" ]}.

Definition api429 : AxiosError :=
  mkError (Some (mkResponse 429 "Too Many Requests" tooManyRequestsBody))
          (Some "ERR_BAD_REQUEST") "Request failed with status code 429".

(** A client with interceptors that log, as the constructor installs
    them with [debug]: a logger prints and hands on what it is given, so
    the client answers as the plain client does, and its state keeps the
    console next to the state of the plain client.  What the loggers
    print is theirs: a line for the request, a line for the response or
    for the error. *)
Definition loggingClient {T : Type}
    (requestLogger : AxiosRequestConfig -> string)
    (responseLogger : AxiosResponse -> string)
    (errorLogger : AxiosError -> string)
    (send : T -> AxiosRequestConfig -> (AxiosError + AxiosResponse) * T)
    (st : T * list string) (cfg : AxiosRequestConfig)
  : (AxiosError + AxiosResponse) * (T * list string) :=
  let out := send (fst st) cfg in
  (fst out,
   (snd out,
    snd st ++ [requestLogger cfg;
               match fst out with
               | inr resp => responseLogger resp
               | inl error => errorLogger error
               end])).

(** Loggers for the examples. *)
Definition logRequest (cfg : AxiosRequestConfig) : string := "[Request] " +:+ cfg_url cfg.

Definition logResponse (resp : AxiosResponse) : string := "[Response] " +:+ pretty (status resp).

Definition logError (error : AxiosError) : string := "[Error] " +:+ message error.

(** Constructor options: one shot only, an endpoint written with slashes
    at its end, and an endpoint of slashes only. *)
Definition singleShotInit : Init.ConnectorOpts :=
  Init.mkInit "123456" "test_secret_key" None None None None None (Some 0%Q) None.

Definition slashedInit : Init.ConnectorOpts :=
  Init.mkInit "123456" "test_secret_key" (Some "https://proxy.example.com/yookassa/v3//")
    (Some true) None None (Some 10000) (Some 3%Q) (Some "http://proxy.example.com:8080").

Definition onlySlashesInit : Init.ConnectorOpts :=
  Init.mkInit "123456" "test_secret_key" (Some "//") None None None None None None.

(** The instance that the constructor builds from an [init], when it
    builds one. *)
Definition built (init : Init.ConnectorOpts) : option ConnectorInstance :=
  match newConnector anyProxy init with
  | inr c => Some c
  | inl _ => None
  end.

(** * Facts *)

(** ** The retry classification *)

(** C2.  A failure is retryable exactly when no response was received, or
    the status of the response is in [500,600), or it is 429; with any
    other status it is not. *)
Theorem isRetryableError_iff (error : AxiosError) :
  isRetryableError error = true <->
    response error = None \/
    (exists r, response error = Some r /\ 500 <= status r < 600) \/
    (exists r, response error = Some r /\ status r = 429).
Proof.
  unfold isRetryableError. destruct (response error) as [r|].
  - destruct (status r >=? 500) eqn:H1, (status r <? 600) eqn:H2, (status r =? 429) eqn:H3;
      cbn; split; intros H; try discriminate; try reflexivity;
      try (right; left; exists r; split; [reflexivity|lia]);
      try (right; right; exists r; split; [reflexivity|lia]);
      destruct H as [H|[(r' & Hr & Hs)|(r' & Hr & Hs)]]; try discriminate;
      inversion Hr; subst r'; lia.
  - split; auto.
Qed.

(** ** The counter against [retries] *)

(** The two tests of the loop, read on whole numbers: [attempt <= retries]
    looks at the floor of [retries], [attempt < retries] at its ceiling. *)
Lemma jsLe_floor (a : Z) (q : Q) : jsLe a q = (a <=? Qfloor q).
Proof.
  unfold jsLe. apply Bool.eq_iff_eq_true.
  rewrite Qle_bool_iff, Z.leb_le. split.
  - intros H. apply Qfloor_resp_le in H. rewrite Qfloor_Z in H. exact H.
  - intros H. apply Qle_trans with (inject_Z (Qfloor q)); [|apply Qfloor_le].
    rewrite <- Zle_Qle. exact H.
Qed.

Lemma jsLt_ceiling (a : Z) (q : Q) : jsLt a q = (a <? Qceiling q).
Proof.
  unfold jsLt. rewrite Z.ltb_antisym. f_equal. apply Bool.eq_iff_eq_true.
  rewrite Qle_bool_iff, Z.leb_le. split.
  - intros H. apply Qceiling_resp_le in H. rewrite Qceiling_Z in H. exact H.
  - intros H. apply Qle_trans with (inject_Z (Qceiling q)); [apply Qle_ceiling|].
    rewrite <- Zle_Qle. exact H.
Qed.

Lemma floor_ceiling (q : Q) : Qfloor q <= Qceiling q <= Qfloor q + 1.
Proof.
  split.
  - pose proof (Qle_trans _ _ _ (Qfloor_le q) (Qle_ceiling q)) as H.
    rewrite <- Zle_Qle in H. exact H.
  - pose proof (Qlt_le_weak _ _ (Qlt_floor q)) as H.
    apply Qceiling_resp_le in H. rewrite Qceiling_Z in H. exact H.
Qed.

Lemma whole_floor_ceiling (q : Q) (n : Z) :
  (q == inject_Z n)%Q -> Qfloor q = n /\ Qceiling q = n.
Proof.
  intros H. split.
  - rewrite (Qfloor_comp _ _ H). apply Qfloor_Z.
  - rewrite (Qceiling_comp _ _ H). apply Qceiling_Z.
Qed.

Lemma le_floor (a : Z) (q : Q) : (inject_Z a <= q)%Q <-> a <= Qfloor q.
Proof. rewrite <- Qle_bool_iff, <- Z.leb_le. fold (jsLe a q). rewrite jsLe_floor. tauto. Qed.

Lemma negative_floor (q : Q) : (q < 0)%Q -> Qfloor q < 0.
Proof.
  intros H. destruct (Z.lt_ge_cases (Qfloor q) 0) as [Hlt|Hge]; [exact Hlt|].
  exfalso. apply (proj2 (le_floor 0 q)) in Hge.
  exact (Qlt_not_le _ _ H Hge).
Qed.

(** A number that is not whole lies strictly between its floor and its
    ceiling. *)
Lemma fraction_floor_ceiling (q : Q) :
  Qeq_bool q (inject_Z (Qfloor q)) = false -> Qceiling q = Qfloor q + 1.
Proof.
  intros H. pose proof (floor_ceiling q) as [Hlo Hhi].
  destruct (Z.eq_dec (Qceiling q) (Qfloor q)) as [Heq|Hne]; [|lia].
  exfalso. apply Qeq_bool_neq in H. apply H.
  apply Qle_antisym; [|apply Qfloor_le].
  rewrite <- Heq. apply Qle_ceiling.
Qed.

Section PipelineFacts.

Context {T G : Type}.
Variable send : T -> AxiosRequestConfig -> (AxiosError + AxiosResponse) * T.
Variable genUUID : G -> string * G.

Implicit Types (self : Connector) (opts : RequestOpts) (w : World T G)
  (e : AxiosError) (attempt : Z) (key : string).

(** ** The test on the body never raises *)

Lemma isValidYooKassaError_pure (d : JsValue) w :
  isValidYooKassaError d w = (inr (validEnvelope d), w).
Proof.
  unfold isValidYooKassaError, bind, lift, ret, throw.
  destruct d as [| | b | n | s | fields]; cbn; try reflexivity.
  - destruct b; reflexivity.
  - destruct (n =? 0); reflexivity.
  - destruct (String.eqb s EmptyString); reflexivity.
  - destruct (fields !! "type") as [v|] eqn:Hty; cbn.
    + destruct v; reflexivity.
    + reflexivity.
Qed.

(** ** One turn of the loop *)

Lemma afterRequest_fields (cfg : AxiosRequestConfig) w :
  transport (afterRequest send cfg w) = snd (send (transport w) cfg) /\
  entropy (afterRequest send cfg w) = entropy w /\
  trace (afterRequest send cfg w) = trace w ++ [EvRequest cfg].
Proof.
  unfold afterRequest, axiosRequest.
  destruct (send (transport w) cfg) as [out t']. cbn. auto.
Qed.

Lemma afterBackoff_fields self attempt w :
  transport (afterBackoff self attempt w) = transport w /\
  entropy (afterBackoff self attempt w) = entropy w /\
  trace (afterBackoff self attempt w) =
    trace w ++ (if debug self then [EvLog (retryLogLine self attempt)] else [])
            ++ [EvDelay (waitTime attempt)].
Proof.
  unfold afterBackoff, bind, consoleLog, delay, emit, ret.
  destruct (debug self); cbn; rewrite <- ?app_assoc; auto.
Qed.

(** The body of the loop, read off the answer of the client. *)
Lemma attemptOnce_eq self opts key attempt w :
  attemptOnce send self opts key attempt w =
  let cfg := requestConfig opts key in
  let w1 := afterRequest send cfg w in
  match fst (send (transport w) cfg) with
  | inr resp => (inr (Return (GoodApiResponse (data resp) key)), w1)
  | inl e =>
      if validEnvelope (responseDataOf e) && negb (isRetryableError e) then
        (inr (Return (BadApiResponse (responseDataOf e) key)), w1)
      else if (attempt <? Qceiling (retries self)) && isRetryableError e then
        (inr (Continue e), afterBackoff self attempt w1)
      else if validEnvelope (responseDataOf e) then
        (inr (Return (BadApiResponse (responseDataOf e) key)), w1)
      else
        (inr (Return (BadApiResponse (synthErrorData key e) key)), w1)
  end.
Proof.
  unfold attemptOnce, afterRequest, afterBackoff, bind at 1, axiosRequest. cbn.
  destruct (send (transport w) (requestConfig opts key)) as [[e|resp] t']; cbn; [|reflexivity].
  unfold bind at 1. rewrite isValidYooKassaError_pure, jsLt_ceiling.
  destruct (validEnvelope (responseDataOf e)), (isRetryableError e); cbn; try reflexivity;
    destruct (attempt <? Qceiling (retries self)); cbn; try reflexivity;
    unfold bind, consoleLog, delay, emit, ret; destruct (debug self); reflexivity.
Qed.

(** ** The loop, one turn at a time *)

Lemma attemptLoop_step self opts key attempt (lastError : option AxiosError) w :
  attemptLoop send self opts key attempt lastError w =
  if attempt <=? Qfloor (retries self) then
    match attemptOnce send self opts key attempt w with
    | (inr (Return r), w') => (inr (Returned r), w')
    | (inr (Continue e), w') => attemptLoop send self opts key (attempt + 1) (Some e) w'
    | (inl x, w') => (inl x, w')
    end
  else (inr (Exhausted lastError), w).
Proof.
  rewrite attemptLoop_equation_1. unfold attemptLoop_unfold_clause_1.
  rewrite <- jsLe_floor.
  generalize (inspect (jsLe attempt (retries self))).
  intros [b Hb]. rewrite Hb. destruct b; cbn; [|reflexivity].
  unfold bind.
  destruct (attemptOnce send self opts key attempt w) as [[x|[r|e]] w']; reflexivity.
Qed.

(** ** What every run of the loop satisfies *)

Lemma requestsOf_app (l1 l2 : list Event) :
  requestsOf (l1 ++ l2) = requestsOf l1 ++ requestsOf l2.
Proof. apply omap_app. Qed.

Lemma delaysOf_app (l1 l2 : list Event) :
  delaysOf (l1 ++ l2) = delaysOf l1 ++ delaysOf l2.
Proof. apply omap_app. Qed.

Lemma backoff_events self attempt :
  let evs := (if debug self then [EvLog (retryLogLine self attempt)] else [])
               ++ [EvDelay (waitTime attempt)] in
  requestsOf evs = [] /\ delaysOf evs = [waitTime attempt].
Proof. destruct (debug self); split; reflexivity. Qed.

(** A turn that ends with [return]: one request, no wait. *)
Local Ltac returned_after_request w cfg :=
  destruct (afterRequest_fields cfg w) as (_ & Hg & Htr);
  eexists _, _, [EvRequest cfg];
  split; [reflexivity|];
  split; [exact Hg|];
  split; [exact Htr|];
  split; [repeat constructor|];
  split; [reflexivity|];
  cbn; repeat split; try reflexivity; lia.

Lemma attemptLoop_inv self opts key (n : nat) :
  forall attempt (lastError : option AxiosError) w,
    Z.to_nat (Qfloor (retries self) + 1 - attempt) = n ->
    exists res w' evs,
      attemptLoop send self opts key attempt lastError w = (inr res, w') /\
      entropy w' = entropy w /\
      trace w' = trace w ++ evs /\
      Forall (eq (requestConfig opts key)) (requestsOf evs) /\
      delaysOf evs = waitTime <$> seqZ attempt (Z.of_nat (length (delaysOf evs))) /\
      match res with
      | Returned r =>
          resultRequestId r = key /\ attempt <= Qfloor (retries self) /\
          length (requestsOf evs) = S (length (delaysOf evs))
      | Exhausted lastError' =>
          length (requestsOf evs) = length (delaysOf evs) /\
          (Qfloor (retries self) < attempt -> lastError' = lastError /\ evs = []) /\
          (attempt <= Qfloor (retries self) ->
           Qfloor (retries self) < Qceiling (retries self))
      end.
Proof.
  induction n as [|n IH]; intros attempt lastError w Hn; rewrite attemptLoop_step.
  - replace (attempt <=? Qfloor (retries self)) with false by lia.
    exists (Exhausted lastError), w, []. rewrite app_nil_r.
    repeat split; try reflexivity; try constructor. intros Hle. exfalso. lia.
  - replace (attempt <=? Qfloor (retries self)) with true by lia.
    rewrite attemptOnce_eq. cbn zeta.
    set (cfg := requestConfig opts key).
    destruct (fst (send (transport w) cfg)) as [e|resp];
      [|returned_after_request w cfg].
    destruct (validEnvelope (responseDataOf e) && negb (isRetryableError e));
      [returned_after_request w cfg|].
    destruct ((attempt <? Qceiling (retries self)) && isRetryableError e) eqn:Hretry;
      [|destruct (validEnvelope (responseDataOf e)); returned_after_request w cfg].
    apply andb_true_iff in Hretry as [Hlt _]. apply Z.ltb_lt in Hlt.
    destruct (IH (attempt + 1) (Some e) (afterBackoff self attempt (afterRequest send cfg w)))
      as (res & w' & evs & Hrun & Hg & Htr & Hreq & Hdel & Hres); [lia|].
    destruct (afterRequest_fields cfg w) as (_ & Hg1 & Htr1).
    destruct (afterBackoff_fields self attempt (afterRequest send cfg w)) as (_ & Hg2 & Htr2).
    destruct (backoff_events self attempt) as [Hbr Hbd].
    set (pause := (if debug self then [EvLog (retryLogLine self attempt)] else [])
                    ++ [EvDelay (waitTime attempt)]) in *.
    exists res, w', ([EvRequest cfg] ++ pause ++ evs).
    split; [exact Hrun|].
    split; [congruence|].
    split.
    { rewrite Htr, Htr2, Htr1. subst pause. rewrite <- !app_assoc. reflexivity. }
    rewrite !requestsOf_app, !delaysOf_app, Hbr, Hbd. cbn.
    split; [constructor; [reflexivity|exact Hreq]|].
    split.
    { rewrite Nat2Z.inj_succ, seqZ_cons by lia. cbn.
      rewrite Z.pred_succ. f_equal. exact Hdel. }
    destruct res as [r|lastError'].
    + destruct Hres as (Hk & Hle & Hlen). repeat split; [exact Hk|lia|lia].
    + destruct Hres as (Hlen & _ & Hfrac).
      split; [lia|]. split; [intros Hgt; exfalso; lia|].
      intros _. destruct (Z.le_gt_cases (attempt + 1) (Qfloor (retries self))) as [Hle|Hgt].
      * exact (Hfrac Hle).
      * lia.
Qed.

(** ** The whole call *)

Lemma request_eq self opts w :
  request send genUUID self opts w =
  let key := idempotenceKeyOf genUUID opts w in
  match attemptLoop send self opts key 0 None (afterKey genUUID opts w) with
  | (inr (Returned res), w') => (inr res, w')
  | (inr (Exhausted lastError), w') =>
      (inr (BadApiResponse (exhaustedErrorData key lastError) key), w')
  | (inl x, w') => (inl x, w')
  end.
Proof.
  unfold request, idempotenceKeyOf, afterKey, entropyAfterKey, bind at 1.
  destruct (requestId opts) as [k|]; cbn.
  - unfold bind. destruct w as [t g tr]; cbn.
    destruct (attemptLoop send self opts k 0 None (mkWorld t g tr)) as [[x|[res|le]] w'];
      reflexivity.
  - unfold randomUUID. destruct (genUUID (entropy w)) as [u g']; cbn.
    unfold bind.
    destruct (attemptLoop send self opts u 0 None (mkWorld (transport w) g' (trace w)))
      as [[x|[res|le]] w']; reflexivity.
Qed.

(** Every call ends with a result that carries the key, after requests
    that all carry the key, and draws at most one UUID. *)
Lemma request_inv self opts w :
  let key := idempotenceKeyOf genUUID opts w in
  exists r w' evs,
    request send genUUID self opts w = (inr r, w') /\
    resultRequestId r = key /\
    entropy w' = entropyAfterKey genUUID opts w /\
    trace w' = trace w ++ evs /\
    Forall (eq (requestConfig opts key)) (requestsOf evs) /\
    delaysOf evs = waitTime <$> seqZ 0 (Z.of_nat (length (delaysOf evs))) /\
    (length (delaysOf evs) <= length (requestsOf evs) <= S (length (delaysOf evs)))%nat /\
    ((retries self < 0)%Q -> evs = []).
Proof.
  intros key. rewrite request_eq. cbv zeta. fold key.
  destruct (attemptLoop_inv self opts key _ 0 None (afterKey genUUID opts w) eq_refl)
    as (res & w' & evs & Hrun & Hg & Htr & Hreq & Hdel & Hres).
  rewrite Hrun. cbn in Hg, Htr.
  destruct res as [r|lastError].
  - destruct Hres as (Hk & Hle & Hlen).
    exists r, w', evs. repeat split; try assumption; try lia.
    intros Hneg. apply negative_floor in Hneg. exfalso. lia.
  - destruct Hres as (Hlen & Hnil & _).
    exists (BadApiResponse (exhaustedErrorData key lastError) key), w', evs.
    repeat split; try assumption; try lia.
    intros Hneg. apply negative_floor in Hneg. apply Hnil. lia.
Qed.

(** ** The idempotence key *)

(** C1.  One key per call: the caller's [requestId] when there is one,
    otherwise one freshly drawn UUID (the generator moves once, or not at
    all).  Every request sent to the client during the call carries that
    string as its [Idempotence-Key] header, and the [requestId] of the
    result, whichever branch it is, is that string. *)
Theorem idempotence_key_shared self opts w :
  let key := match requestId opts with
             | Some k => k
             | None => fst (genUUID (entropy w))
             end in
  exists r w' evs,
    request send genUUID self opts w = (inr r, w') /\
    trace w' = trace w ++ evs /\
    Forall (fun cfg => cfg_headers cfg !! "Idempotence-Key" = Some key) (requestsOf evs) /\
    resultRequestId r = key /\
    entropy w' = match requestId opts with
                 | Some _ => entropy w
                 | None => snd (genUUID (entropy w))
                 end.
Proof.
  intros key.
  destruct (request_inv self opts w) as (r & w' & evs & Hrun & Hk & Hg & Htr & Hreq & _).
  exists r, w', evs. repeat split; try assumption.
  eapply Forall_impl; [exact Hreq|].
  intros cfg <-. cbn. apply lookup_singleton_eq.
Qed.

(** ** No exception, one branch *)

(** C8.  Whatever the client answers (a response, an error of the API, a
    network error, a body that is not an error of the API), [request]
    raises nothing and returns a result with exactly one branch set:
    ['OK'] with [data] and no [errorData], or ['NO_OK'] with [errorData]
    and no [data]. *)
Theorem request_never_throws self opts w :
  exists r w',
    request send genUUID self opts w = (inr r, w') /\
    ((success r = "OK" /\ is_Some (resultData r) /\ resultErrorData r = None) \/
     (success r = "NO_OK" /\ resultData r = None /\ is_Some (resultErrorData r))).
Proof.
  destruct (request_inv self opts w) as (r & w' & evs & Hrun & _).
  exists r, w'. split; [exact Hrun|].
  destruct r as [d k|d k]; [left|right]; cbn; eauto.
Qed.

(** ** When the loop returns, and when it does not *)

(** Past the last attempt the loop ends without a turn. *)
Lemma attemptLoop_exit self opts key attempt (lastError : option AxiosError) w :
  Qfloor (retries self) < attempt ->
  attemptLoop send self opts key attempt lastError w = (inr (Exhausted lastError), w).
Proof.
  intros Hgt. rewrite attemptLoop_step.
  replace (attempt <=? Qfloor (retries self)) with false by lia. reflexivity.
Qed.

(** The turn at [attempt = retries], when [retries] is whole: whatever
    the client answers, the call ends there. *)
Lemma attemptLoop_last self opts key attempt (lastError : option AxiosError) w :
  Qfloor (retries self) = attempt ->
  Qceiling (retries self) = attempt ->
  attemptLoop send self opts key attempt lastError w =
  (inr (Returned
          match fst (send (transport w) (requestConfig opts key)) with
          | inr resp => GoodApiResponse (data resp) key
          | inl e =>
              BadApiResponse
                (if validEnvelope (responseDataOf e) then responseDataOf e
                 else synthErrorData key e) key
          end),
   afterRequest send (requestConfig opts key) w).
Proof.
  intros Hlo Hhi.
  rewrite attemptLoop_step, Hlo, Z.leb_refl, attemptOnce_eq. cbn zeta.
  rewrite Hhi, Z.ltb_irrefl. cbn.
  destruct (fst (send (transport w) (requestConfig opts key))) as [e|resp]; [|reflexivity].
  destruct (validEnvelope (responseDataOf e)), (isRetryableError e); reflexivity.
Qed.

(** C9, as the code has it.  With a whole [retries = n >= 0]: the turn at
    [attempt = n] always ends with [return]; in every turn the [catch]
    block either returns an error result or continues (and then attempts
    remain); and the loop entered at 0 ends with a [return] from its
    body, which is what [request] returns: the block after the loop is
    not reached. *)
Theorem loop_returns_from_body self opts (n : Z) :
  (retries self == inject_Z n)%Q ->
  0 <= n ->
  (forall key w, exists r w',
      attemptOnce send self opts key n w = (inr (Return r), w')) /\
  (forall key attempt w e,
      fst (send (transport w) (requestConfig opts key)) = inl e ->
      (exists d w',
          attemptOnce send self opts key attempt w
          = (inr (Return (BadApiResponse d key)), w')) \/
      (exists w',
          attemptOnce send self opts key attempt w = (inr (Continue e), w') /\
          attempt < n)) /\
  (forall w, exists r w',
      attemptLoop send self opts (idempotenceKeyOf genUUID opts w) 0 None
        (afterKey genUUID opts w) = (inr (Returned r), w') /\
      request send genUUID self opts w = (inr r, w')).
Proof.
  intros Hwhole Hpos.
  destruct (whole_floor_ceiling _ _ Hwhole) as [Hlo Hhi].
  split; [|split].
  - intros key w. rewrite attemptOnce_eq. cbn zeta.
    rewrite Hhi, Z.ltb_irrefl. cbn.
    destruct (fst (send (transport w) (requestConfig opts key))) as [e|resp]; [|eauto].
    destruct (validEnvelope (responseDataOf e) && negb (isRetryableError e)); [eauto|].
    destruct (validEnvelope (responseDataOf e)); eauto.
  - intros key attempt w e He. rewrite attemptOnce_eq. cbn zeta. rewrite He, Hhi.
    destruct (validEnvelope (responseDataOf e) && negb (isRetryableError e)); [eauto|].
    destruct ((attempt <? n) && isRetryableError e) eqn:Hretry.
    + right. apply andb_true_iff in Hretry as [Hlt _]. apply Z.ltb_lt in Hlt. eauto.
    + left. destruct (validEnvelope (responseDataOf e)); eauto.
  - intros w.
    destruct (attemptLoop_inv self opts (idempotenceKeyOf genUUID opts w) _ 0 None
                (afterKey genUUID opts w) eq_refl)
      as (res & w' & evs & Hrun & _ & _ & _ & _ & Hres).
    destruct res as [r|lastError'].
    + exists r, w'. split; [exact Hrun|].
      rewrite request_eq. cbv zeta. rewrite Hrun. reflexivity.
    + destruct Hres as (_ & _ & Hfrac). exfalso.
      assert (Hlt : Qfloor (retries self) < Qceiling (retries self)) by (apply Hfrac; lia).
      lia.
Qed.

(** ** Runs of retryable failures *)

(** While the client answers with retryable failures and attempts remain,
    the loop goes on: [k] failures cost [k] requests and [k] waits, and
    [lastError] is the last of them. *)
Lemma retry_chain self opts key (k : nat) :
  forall attempt (lastError : option AxiosError) w,
    attempt + Z.of_nat k <= Qceiling (retries self) ->
    (forall i, (i < k)%nat -> exists e,
        outcomeAt send i (transport w) (requestConfig opts key) = inl e /\
        isRetryableError e = true) ->
    exists lastError' w' evs,
      attemptLoop send self opts key attempt lastError w
      = attemptLoop send self opts key (attempt + Z.of_nat k) lastError' w' /\
      transport w' = afterCalls send k (transport w) (requestConfig opts key) /\
      entropy w' = entropy w /\
      trace w' = trace w ++ evs /\
      length (requestsOf evs) = k /\
      delaysOf evs = waitTime <$> seqZ attempt (Z.of_nat k) /\
      (k = 0%nat -> lastError' = lastError) /\
      (forall e, (0 < k)%nat ->
         outcomeAt send (k - 1) (transport w) (requestConfig opts key) = inl e ->
         lastError' = Some e).
Proof.
  set (cfg := requestConfig opts key).
  pose proof (floor_ceiling (retries self)) as Hfc.
  induction k as [|k IH]; intros attempt lastError w Hle Hfail.
  - exists lastError, w, []. rewrite Z.add_0_r, app_nil_r.
    repeat split; try reflexivity. intros e Hk. lia.
  - destruct (Hfail 0%nat) as (e & He & Hretry); [lia|].
    unfold outcomeAt in He. cbn in He.
    set (w2 := afterBackoff self attempt (afterRequest send cfg w)).
    destruct (afterRequest_fields cfg w) as (Ht1 & Hg1 & Htr1).
    destruct (afterBackoff_fields self attempt (afterRequest send cfg w)) as (Ht2 & Hg2 & Htr2).
    destruct (backoff_events self attempt) as [Hbr Hbd].
    fold w2 in Ht2, Hg2, Htr2.
    destruct (IH (attempt + 1) (Some e) w2)
      as (le' & w' & evs & Hrun & Ht & Hg & Htr & Hreq & Hdel & Hzero & Hlast).
    { lia. }
    { intros i Hi. destruct (Hfail (S i)) as (e' & He' & Hr'); [lia|].
      exists e'. split; [|exact Hr'].
      unfold outcomeAt in *. cbn in He'. rewrite Ht2, Ht1. exact He'. }
    set (pause := (if debug self then [EvLog (retryLogLine self attempt)] else [])
                    ++ [EvDelay (waitTime attempt)]) in *.
    exists le', w', ([EvRequest cfg] ++ pause ++ evs).
    split.
    { rewrite attemptLoop_step.
      replace (attempt <=? Qfloor (retries self)) with true by lia.
      rewrite attemptOnce_eq. cbn zeta. fold cfg. rewrite He, Hretry.
      rewrite andb_false_r.
      replace (attempt <? Qceiling (retries self)) with true by lia. cbn.
      fold w2. rewrite Hrun. f_equal. lia. }
    split; [rewrite Ht, Ht2, Ht1; reflexivity|].
    split; [congruence|].
    split; [rewrite Htr, Htr2, Htr1; subst pause; rewrite <- !app_assoc; reflexivity|].
    rewrite !requestsOf_app, !delaysOf_app, Hbr, Hbd. cbn [length app].
    split; [cbn; congruence|].
    split.
    { rewrite Hdel, Nat2Z.inj_succ, (seqZ_cons attempt) by lia.
      rewrite Z.pred_succ. reflexivity. }
    split; [discriminate|].
    intros e' _ He'. destruct k as [|k].
    + unfold outcomeAt in He'. cbn in He'. fold cfg in He'.
      rewrite He in He'. inversion He'; subst e'. apply Hzero. reflexivity.
    + apply Hlast; [lia|].
      replace (S (S k) - 1)%nat with (S k) in He' by lia.
      replace (S k - 1)%nat with k by lia.
      unfold outcomeAt in *. cbn [afterCalls] in He'. rewrite Ht2, Ht1. exact He'.
Qed.

(** A call with a whole [retries = n >= 0] in which every attempt meets
    a retryable failure: [n + 1] requests, the waits of the backoff in
    between, and the result decided by the last failure. *)
Lemma request_all_retryable self opts w (n : Z) :
  let key := idempotenceKeyOf genUUID opts w in
  let cfg := requestConfig opts key in
  Qfloor (retries self) = n ->
  Qceiling (retries self) = n ->
  0 <= n ->
  (forall i, Z.of_nat i <= n -> exists e,
      outcomeAt send i (transport w) cfg = inl e /\ isRetryableError e = true) ->
  exists e w' evs,
    outcomeAt send (Z.to_nat n) (transport w) cfg = inl e /\
    request send genUUID self opts w
    = (inr (BadApiResponse
              (if validEnvelope (responseDataOf e) then responseDataOf e
               else synthErrorData key e) key), w') /\
    trace w' = trace w ++ evs /\
    length (requestsOf evs) = S (Z.to_nat n) /\
    delaysOf evs = waitTime <$> seqZ 0 n.
Proof.
  intros key cfg Hlo Hhi Hpos Hfail.
  destruct (Hfail (Z.to_nat n)) as (e & He & _); [lia|].
  destruct (retry_chain self opts key (Z.to_nat n) 0 None (afterKey genUUID opts w))
    as (le' & w1 & evs & Hrun & Ht & Hg & Htr & Hreq & Hdel & _).
  { lia. }
  { intros i Hi. apply Hfail. lia. }
  cbn in Ht, Htr. fold key cfg in Ht.
  rewrite Z2Nat.id in Hrun, Hdel by lia. rewrite Z.add_0_l in Hrun.
  rewrite (attemptLoop_last self opts key n le' w1 Hlo Hhi) in Hrun. fold key cfg in Hrun.
  unfold outcomeAt in He. rewrite <- Ht in He. rewrite He in Hrun.
  destruct (afterRequest_fields cfg w1) as (_ & _ & Htr1).
  exists e, (afterRequest send cfg w1), (evs ++ [EvRequest cfg]).
  split; [unfold outcomeAt; rewrite <- Ht; exact He|].
  split; [rewrite request_eq; cbv zeta; fold key; rewrite Hrun; reflexivity|].
  split; [rewrite Htr1, Htr, <- app_assoc; reflexivity|].
  rewrite requestsOf_app, delaysOf_app, length_app, Hreq, Hdel, app_nil_r. cbn.
  split; [lia|reflexivity].
Qed.

(** The same with a [retries >= 0] that is not whole, [n] being its
    floor: the turn at [attempt = n] waits and continues, the loop ends
    on its condition, and the block after the loop answers from
    [lastError]. *)
Lemma request_all_retryable_fraction self opts w (n : Z) :
  let key := idempotenceKeyOf genUUID opts w in
  let cfg := requestConfig opts key in
  Qfloor (retries self) = n ->
  Qceiling (retries self) = n + 1 ->
  0 <= n ->
  (forall i, Z.of_nat i <= n -> exists e,
      outcomeAt send i (transport w) cfg = inl e /\ isRetryableError e = true) ->
  exists e w' evs,
    outcomeAt send (Z.to_nat n) (transport w) cfg = inl e /\
    request send genUUID self opts w
    = (inr (BadApiResponse (exhaustedErrorData key (Some e)) key), w') /\
    trace w' = trace w ++ evs /\
    length (requestsOf evs) = S (Z.to_nat n) /\
    delaysOf evs = waitTime <$> seqZ 0 (n + 1).
Proof.
  intros key cfg Hlo Hhi Hpos Hfail.
  destruct (Hfail (Z.to_nat n)) as (e & He & _); [lia|].
  destruct (retry_chain self opts key (S (Z.to_nat n)) 0 None (afterKey genUUID opts w))
    as (le' & w1 & evs & Hrun & Ht & Hg & Htr & Hreq & Hdel & _ & Hlast).
  { lia. }
  { intros i Hi. apply Hfail. lia. }
  cbn [afterKey transport trace] in Ht, Htr, Hlast. fold key cfg in Ht, Hlast.
  rewrite (Hlast e) in Hrun; [|lia|replace (S (Z.to_nat n) - 1)%nat with (Z.to_nat n) by lia;
                                    exact He].
  rewrite (attemptLoop_exit self opts key (0 + Z.of_nat (S (Z.to_nat n))) (Some e) w1)
    in Hrun by lia.
  exists e, w1, evs.
  split; [exact He|].
  split; [rewrite request_eq; cbv zeta; fold key; rewrite Hrun; reflexivity|].
  split; [exact Htr|]. split; [exact Hreq|].
  rewrite Hdel. f_equal. f_equal. lia.
Qed.

(** With a negative [retries] no attempt is made, and the block after the
    loop answers with the code ['RETRY_EXHAUSTED']. *)
Lemma negative_retries_exhausted self opts w :
  (retries self < 0)%Q ->
  request send genUUID self opts w
  = (inr (BadApiResponse
            (errorObject (idempotenceKeyOf genUUID opts w)
               "RETRY_EXHAUSTED" "All retry attempts failed")
            (idempotenceKeyOf genUUID opts w)),
     afterKey genUUID opts w).
Proof.
  intros Hneg. apply negative_floor in Hneg.
  rewrite request_eq. cbv zeta. rewrite attemptLoop_exit by lia. reflexivity.
Qed.

(** ** Client errors of the API *)

(** C6.  A failure with status 400 whose body is an object with [type]
    equal to ['error'], met at the first attempt: the call returns that
    body as [errorData] right away (one request, no wait, no second
    attempt). *)
Theorem client_error_returned_at_once self opts w e r (fields : gmap string JsValue) :
  let key := idempotenceKeyOf genUUID opts w in
  let cfg := requestConfig opts key in
  (0 <= retries self)%Q ->
  fst (send (transport w) cfg) = inl e ->
  response e = Some r ->
  status r = 400 ->
  data r = JObject fields ->
  fields !! "type" = Some (JString "error") ->
  exists w',
    request send genUUID self opts w = (inr (BadApiResponse (JObject fields) key), w') /\
    trace w' = trace w ++ [EvRequest cfg] /\
    transport w' = snd (send (transport w) cfg).
Proof.
  intros key cfg Hpos He Hr Hs Hd Hty.
  apply (proj1 (le_floor 0 (retries self))) in Hpos.
  assert (Hbody : responseDataOf e = JObject fields)
    by (unfold responseDataOf; rewrite Hr; exact Hd).
  assert (Hvalid : validEnvelope (responseDataOf e) = true)
    by (rewrite Hbody; cbn; rewrite Hty; reflexivity).
  assert (Hretry : isRetryableError e = false)
    by (unfold isRetryableError; rewrite Hr, Hs; reflexivity).
  destruct (afterRequest_fields cfg (afterKey genUUID opts w)) as (Ht1 & _ & Htr1).
  exists (afterRequest send cfg (afterKey genUUID opts w)).
  split; [|split; assumption].
  rewrite request_eq. cbv zeta. fold key.
  rewrite attemptLoop_step.
  replace (0 <=? Qfloor (retries self)) with true by lia.
  rewrite attemptOnce_eq. cbn zeta. fold cfg. cbn [afterKey transport].
  rewrite He, Hvalid, Hretry, Hbody. reflexivity.
Qed.

(** ** The backoff *)

(** C7.  A turn of the loop that ends with [continue] at attempt [i] has
    sent one request and then waited exactly [1000 * 2 ^ i] ms, whatever
    [i] is: the wait is not randomised and not capped. *)
Theorem backoff_doubles self opts key attempt w e w' :
  0 <= attempt ->
  attemptOnce send self opts key attempt w = (inr (Continue e), w') ->
  exists evs,
    trace w' = trace w ++ evs /\
    requestsOf evs = [requestConfig opts key] /\
    delaysOf evs = [1000 * 2 ^ attempt].
Proof.
  intros _ Hrun. rewrite attemptOnce_eq in Hrun. cbn zeta in Hrun.
  set (cfg := requestConfig opts key) in *.
  destruct (afterRequest_fields cfg w) as (_ & _ & Htr1).
  destruct (afterBackoff_fields self attempt (afterRequest send cfg w)) as (_ & _ & Htr2).
  destruct (backoff_events self attempt) as [Hbr Hbd].
  destruct (fst (send (transport w) cfg)) as [e0|resp]; [|discriminate].
  destruct (validEnvelope (responseDataOf e0) && negb (isRetryableError e0)); [discriminate|].
  destruct ((attempt <? Qceiling (retries self)) && isRetryableError e0);
    [|destruct (validEnvelope (responseDataOf e0)); discriminate].
  inversion Hrun; subst e0 w'.
  eexists. split; [rewrite Htr2, Htr1, <- app_assoc; reflexivity|].
  rewrite requestsOf_app, delaysOf_app, Hbr, Hbd. split; reflexivity.
Qed.

(** The waits of a whole call are 1000, 2000, 4000, ... in this order. *)
Lemma request_delays self opts w :
  exists r w' evs,
    request send genUUID self opts w = (inr r, w') /\
    trace w' = trace w ++ evs /\
    forall (i : nat) ms, delaysOf evs !! i = Some ms -> ms = 1000 * 2 ^ Z.of_nat i.
Proof.
  destruct (request_inv self opts w) as (r & w' & evs & Hrun & _ & _ & Htr & _ & Hdel & _).
  exists r, w', evs. repeat split; try assumption.
  intros i ms Hi. rewrite Hdel in Hi.
  rewrite list_lookup_fmap in Hi.
  destruct (seqZ 0 (Z.of_nat (length (delaysOf evs))) !! i) as [z|] eqn:Hz; [|discriminate].
  apply lookup_seqZ in Hz as [-> _]. inversion Hi. reflexivity.
Qed.

(** ** Bodies that are not an error of the API *)

(** C3, as the code has it.  A failure whose body is not an error object
    of the API is judged on its status alone, as [isRetryableError] does:
    it is retried when no response came or the status is 5xx or 429 and
    attempts remain; with any other status, or at the last attempt, the
    loop returns at once an error built by the connector. *)
Theorem malformed_body_follows_status self opts key attempt (lastError : option AxiosError) w e :
  (inject_Z attempt <= retries self)%Q ->
  fst (send (transport w) (requestConfig opts key)) = inl e ->
  validEnvelope (responseDataOf e) = false ->
  attemptLoop send self opts key attempt lastError w =
  if isRetryableError e && jsLt attempt (retries self) then
    attemptLoop send self opts key (attempt + 1) (Some e)
      (afterBackoff self attempt (afterRequest send (requestConfig opts key) w))
  else
    (inr (Returned (BadApiResponse (synthErrorData key e) key)),
     afterRequest send (requestConfig opts key) w).
Proof.
  intros Hle He Hvalid. apply le_floor in Hle.
  rewrite attemptLoop_step.
  replace (attempt <=? Qfloor (retries self)) with true by lia.
  rewrite attemptOnce_eq. cbn zeta. rewrite He, Hvalid, jsLt_ceiling. cbn.
  rewrite andb_comm.
  destruct (isRetryableError e && (attempt <? Qceiling (retries self))); reflexivity.
Qed.

(** ** Errors built by the connector *)


(** ** When the attempts run out *)

(** C5.  With [retries = 3] and a client that answers every call with
    status 503, the call makes exactly 4 requests (with waits of 1000,
    2000 and 4000 ms in between) and returns an error result: the body of
    the last failure when it is an error object of the API, otherwise an
    error built by the connector, whose code is ['HTTP_503']. *)
Theorem always_503_four_attempts (dbg : bool) opts w :
  let self := mkConnector 3%Q dbg in
  let key := idempotenceKeyOf genUUID opts w in
  let cfg := requestConfig opts key in
  (forall n, exists e r,
      outcomeAt send n (transport w) cfg = inl e /\
      response e = Some r /\ status r = 503) ->
  exists e r w' evs,
    outcomeAt send 3 (transport w) cfg = inl e /\
    response e = Some r /\
    request send genUUID self opts w
    = (inr (BadApiResponse
              (if validEnvelope (data r) then data r else synthErrorData key e) key), w') /\
    field "code" (synthErrorData key e) = Some (JString "HTTP_503") /\
    trace w' = trace w ++ evs /\
    length (requestsOf evs) = 4%nat /\
    delaysOf evs = [1000; 2000; 4000].
Proof.
  intros self key cfg Hfail.
  destruct (request_all_retryable self opts w 3)
    as (e & w' & evs & He & Hrun & Htr & Hreq & Hdel); try reflexivity.
  { lia. }
  { intros n _. destruct (Hfail n) as (e & r & He & Hr & Hs).
    exists e. split; [exact He|].
    unfold isRetryableError. rewrite Hr, Hs. reflexivity. }
  change (Z.to_nat 3) with 3%nat in He, Hreq.
  change (waitTime <$> seqZ 0 3) with [1000; 2000; 4000] in Hdel.
  fold key cfg in He, Hrun.
  destruct (Hfail 3%nat) as (e' & r & He' & Hr & Hs).
  rewrite He in He'. inversion He'; subst e'.
  exists e, r, w', evs.
  assert (Hbody : responseDataOf e = data r) by (unfold responseDataOf; rewrite Hr; reflexivity).
  rewrite Hbody in Hrun.
  repeat split; try assumption.
  cbn. unfold synthCode. rewrite Hr. cbn. rewrite Hs. reflexivity.
Qed.

(** C4, as the code has it.  When every attempt of a call fails with a
    retryable failure whose body is not an error object of the API (and
    [retries >= 0]), the error returned once the attempts have run out is
    built from the last failure.  With a whole [retries] it is built in
    the loop: its code is ['HTTP_<status>'] when that failure has a
    response, otherwise the error code of the transport when there is one
    other than the empty string, otherwise ['NETWORK_ERROR'].  With a
    [retries] that is not whole it is built after the loop: its code is
    the error code of the last failure when there is one other than the
    empty string, otherwise ['RETRY_EXHAUSTED']. *)
Theorem exhaustion_code_from_last_failure self opts w :
  let key := idempotenceKeyOf genUUID opts w in
  let cfg := requestConfig opts key in
  let last := Qfloor (retries self) in
  (0 <= retries self)%Q ->
  (forall n, Z.of_nat n <= last -> exists e,
      outcomeAt send n (transport w) cfg = inl e /\
      isRetryableError e = true /\
      validEnvelope (responseDataOf e) = false) ->
  exists e d w' evs,
    outcomeAt send (Z.to_nat last) (transport w) cfg = inl e /\
    request send genUUID self opts w = (inr (BadApiResponse d key), w') /\
    trace w' = trace w ++ evs /\
    length (requestsOf evs) = S (Z.to_nat last) /\
    field "code" d = Some (JString
      (if Qeq_bool (retries self) (inject_Z last) then
         match response e with
         | Some r => "HTTP_" +:+ pretty (status r)
         | None =>
             match code e with
             | Some c => if String.eqb c EmptyString then "NETWORK_ERROR" else c
             | None => "NETWORK_ERROR"
             end
         end
       else
         match code e with
         | Some c => if String.eqb c EmptyString then "RETRY_EXHAUSTED" else c
         | None => "RETRY_EXHAUSTED"
         end)).
Proof.
  intros key cfg last Hpos Hfail.
  apply (proj1 (le_floor 0 (retries self))) in Hpos. fold last in Hpos.
  assert (Hretryable : forall i, Z.of_nat i <= last -> exists e,
             outcomeAt send i (transport w) cfg = inl e /\ isRetryableError e = true).
  { intros n Hn. destruct (Hfail n Hn) as (e & He & Hr & _). eauto. }
  destruct (Hfail (Z.to_nat last)) as (e0 & He0 & Hretry & Hvalid); [lia|].
  destruct (Qeq_bool (retries self) (inject_Z last)) eqn:Hwhole.
  - apply Qeq_bool_eq in Hwhole.
    destruct (whole_floor_ceiling _ _ Hwhole) as [_ Hhi].
    destruct (request_all_retryable self opts w last eq_refl Hhi Hpos Hretryable)
      as (e & w' & evs & He & Hrun & Htr & Hreq & _).
    fold key cfg in He, Hrun.
    rewrite He in He0. inversion He0; subst e0.
    rewrite Hvalid in Hrun.
    exists e, (synthErrorData key e), w', evs.
    repeat split; try assumption.
    cbn. unfold synthCode.
    unfold isRetryableError in Hretry.
    destruct (response e) as [r|]; cbn; [|reflexivity].
    replace (status r =? 0) with false; [reflexivity|].
    symmetry. apply Z.eqb_neq. intros H0. rewrite H0 in Hretry. discriminate.
  - apply fraction_floor_ceiling in Hwhole.
    destruct (request_all_retryable_fraction self opts w last eq_refl Hwhole Hpos Hretryable)
      as (e & w' & evs & He & Hrun & Htr & Hreq & _).
    fold key cfg in He, Hrun.
    exists e, (exhaustedErrorData key (Some e)), w', evs.
    repeat split; assumption.
Qed.
End PipelineFacts.

(** * The facts at work *)

(** Two refused connections, then a response: three requests, two waits,
    and the payload under ['OK'] with the caller's key. *)
Example two_failures_then_success :
  let run := request (failsThenSucceeds 2 noResponse paymentCreated) fixedUUID
               (mkConnector 5%Q false) createPayment world0 in
  fst run = inr (GoodApiResponse (data paymentCreated) "order-17") /\
  length (requestsOf (trace (snd run))) = 3%nat /\
  delaysOf (trace (snd run)) = [1000; 2000] /\
  entropy (snd run) = tt /\
  Forall (fun cfg => cfg_headers cfg !! "Idempotence-Key" = Some "order-17" /\
                     cfg_data cfg = opts_data createPayment)
         (requestsOf (trace (snd run))).
Proof. vm_compute. repeat split; repeat constructor. Qed.

(** The test on the body: objects with [type] equal to ['error'] only. *)
Example validEnvelope_examples :
  validEnvelope invalidRequestBody = true /\
  validEnvelope (JString "<html>503</html>") = false /\
  validEnvelope (JString EmptyString) = false /\
  validEnvelope JNull = false /\
  validEnvelope JUndefined = false /\
  validEnvelope (JObject {[ "type" := JString "payment" ]}) = false /\
  validEnvelope (JObject {[ "error" := JString "type" ]}) = false.
Proof. vm_compute. repeat split. Qed.

(** The line of the debug mode shows [retries] as JavaScript prints a
    number. *)
Example retryLogLine_examples :
  retryLogLine (mkConnector 5%Q true) 0 = "[YooKassa] Retry attempt 1/5, waiting 1000ms..." /\
  retryLogLine (mkConnector (5 # 2) true) 2
  = "[YooKassa] Retry attempt 3/2.5, waiting 4000ms...".
Proof. vm_compute. split; reflexivity. Qed.

Lemma outcomeAt_alwaysFails (e : AxiosError) (n : nat) :
  forall (t : nat) (cfg : AxiosRequestConfig), outcomeAt (alwaysFails e) n t cfg = inl e.
Proof.
  induction n as [|n IH]; intros t cfg; [reflexivity|].
  exact (IH (S t) cfg).
Qed.

(** With [retries = 2] the loop returns from its body, and [request]
    returns what the loop returned. *)
Lemma loop_returns_from_body_witness :
  (retries (mkConnector 2%Q false) == inject_Z 2)%Q /\
  exists r w',
    attemptLoop (alwaysFails html503) (mkConnector 2%Q false) listPayments uuid0 0 None world0
    = (inr (Returned r), w') /\
    request (alwaysFails html503) fixedUUID (mkConnector 2%Q false) listPayments world0
    = (inr r, w').
Proof.
  split; [reflexivity|].
  destruct (loop_returns_from_body (alwaysFails html503) fixedUUID
              (mkConnector 2%Q false) listPayments 2) as (_ & _ & Hloop);
    [reflexivity|lia|].
  exact (Hloop world0).
Defined.

(** C9 as it is written does not hold: [retries] is a number, and with
    [retries = 0.5] (which is [>= 0]) and a gateway that answers 503 with
    an HTML page, the turn at attempt 0 waits and continues since
    [0 < 0.5], the loop ends on its condition since [1 <= 0.5] is false,
    and the block after the loop builds the result, with the code of the
    last failure. *)
Lemma half_retry_reaches_post_loop :
  let self := mkConnector (1 # 2) false in
  let run := request (alwaysFails html503) fixedUUID self listPayments world0 in
  (0 <= retries self)%Q /\
  attemptOnce (alwaysFails html503) self listPayments uuid0 0 world0
  = (inr (Continue html503), snd run) /\
  attemptLoop (alwaysFails html503) self listPayments uuid0 0 None world0
  = (inr (Exhausted (Some html503)), snd run) /\
  fst run = inr (BadApiResponse (exhaustedErrorData uuid0 (Some html503)) uuid0) /\
  field "code" (exhaustedErrorData uuid0 (Some html503)) = Some (JString "ERR_BAD_RESPONSE") /\
  requestsOf (trace (snd run)) = [requestConfig listPayments uuid0] /\
  delaysOf (trace (snd run)) = [1000] /\
  ~ (exists r w',
        attemptLoop (alwaysFails html503) self listPayments uuid0 0 None world0
        = (inr (Returned r), w')).
Proof.
  repeat split; try (vm_compute; reflexivity).
  - discriminate.
  - intros (r & w' & H). vm_compute in H. discriminate H.
Qed.

(** The API answers 400 [invalid_request]: one request, and its body is
    the result. *)
Lemma client_error_returned_at_once_witness :
  exists w',
    request (alwaysFails api400) fixedUUID (mkConnector 5%Q false) listPayments world0
    = (inr (BadApiResponse invalidRequestBody uuid0), w') /\
    trace w' = [EvRequest (requestConfig listPayments uuid0)] /\
    transport w' = 1%nat.
Proof.
  apply (client_error_returned_at_once (alwaysFails api400) fixedUUID
           (mkConnector 5%Q false) listPayments world0 api400 badRequest invalidRequestFields);
    [discriminate|reflexivity..].
Defined.

(** The wait after a failure of attempt 3 is 8000 ms. *)
Lemma backoff_doubles_witness :
  exists evs,
    trace (snd (attemptOnce (alwaysFails html503) (mkConnector 5%Q true) listPayments uuid0 3
                  world0))
    = trace world0 ++ evs /\
    requestsOf evs = [requestConfig listPayments uuid0] /\
    delaysOf evs = [8000].
Proof.
  apply (backoff_doubles (alwaysFails html503) (mkConnector 5%Q true) listPayments uuid0 3
           world0 html503); [lia|vm_compute; reflexivity].
Defined.

(** The four waits of the specification, for attempts 0 to 3. *)
Lemma backoff_schedule :
  delaysOf (trace (snd (request (alwaysFails html503) fixedUUID (mkConnector 4%Q false)
                          listPayments world0)))
  = [1000; 2000; 4000; 8000].
Proof. vm_compute. reflexivity. Qed.

(** A 404 with an HTML page, three retries left: the loop returns. *)
Lemma malformed_body_follows_status_witness :
  attemptLoop (alwaysFails html404) (mkConnector 3%Q false) listPayments uuid0 0 None world0
  = (inr (Returned (BadApiResponse (synthErrorData uuid0 html404) uuid0)),
     afterRequest (alwaysFails html404) (requestConfig listPayments uuid0) world0).
Proof.
  apply (malformed_body_follows_status (alwaysFails html404) (mkConnector 3%Q false)
           listPayments uuid0 0 None world0 html404); [discriminate|reflexivity..].
Defined.

(** C3 as it is written does not hold: a 404 whose body is an HTML page
    is not an error object of the API, three retries are left, and yet
    the turn does not continue; the call ends after one request, without
    a wait, with the error that the connector builds. *)
Lemma malformed_404_not_retried :
  let run := request (alwaysFails html404) fixedUUID (mkConnector 3%Q false) listPayments world0 in
  validEnvelope (responseDataOf html404) = false /\
  status <$> response html404 = Some 404 /\
  fst run = inr (BadApiResponse (synthErrorData uuid0 html404) uuid0) /\
  requestsOf (trace (snd run)) = [requestConfig listPayments uuid0] /\
  delaysOf (trace (snd run)) = [] /\
  ~ (exists e w',
        attemptOnce (alwaysFails html404) (mkConnector 3%Q false) listPayments uuid0 0 world0
        = (inr (Continue e), w')).
Proof.
  repeat split; try (vm_compute; reflexivity).
  intros (e & w' & H). vm_compute in H. discriminate H.
Qed.

(** A refused connection with [retries = 2]: three requests, and the
    error of the loop; a 503 with an HTML page and [retries = 0.5]: one
    request, and the error of the block after the loop. *)
Lemma exhaustion_code_from_last_failure_witness :
  (exists d w',
      request (alwaysFails noResponse) fixedUUID (mkConnector 2%Q false) listPayments world0
      = (inr (BadApiResponse d uuid0), w') /\
      length (requestsOf (trace w')) = 3%nat /\
      field "code" d = Some (JString "NETWORK_ERROR")) /\
  (exists d w',
      request (alwaysFails html503) fixedUUID (mkConnector (1 # 2) false) listPayments world0
      = (inr (BadApiResponse d uuid0), w') /\
      length (requestsOf (trace w')) = 1%nat /\
      field "code" d = Some (JString "ERR_BAD_RESPONSE")).
Proof.
  split.
  - destruct (exhaustion_code_from_last_failure (alwaysFails noResponse) fixedUUID
                (mkConnector 2%Q false) listPayments world0)
      as (e & d & w' & evs & He & Hrun & Htr & Hlen & Hcode).
    + discriminate.
    + intros n _. exists noResponse.
      split; [apply outcomeAt_alwaysFails|split; reflexivity].
    + rewrite outcomeAt_alwaysFails in He. inversion He; subst e.
      exists d, w'. rewrite Htr. repeat split; assumption.
  - destruct (exhaustion_code_from_last_failure (alwaysFails html503) fixedUUID
                (mkConnector (1 # 2) false) listPayments world0)
      as (e & d & w' & evs & He & Hrun & Htr & Hlen & Hcode).
    + discriminate.
    + intros n _. exists html503.
      split; [apply outcomeAt_alwaysFails|split; reflexivity].
    + rewrite outcomeAt_alwaysFails in He. inversion He; subst e.
      exists d, w'. rewrite Htr. repeat split; assumption.
Defined.

(** C4 as it is written does not hold: every attempt fails, the failure
    is retryable and has no body at all, the attempts run out after three
    requests, and the code of the error is ['NETWORK_ERROR'], not
    ['RETRY_EXHAUSTED']; with a 503 and an HTML page it is ['HTTP_503']. *)
Lemma exhaustion_code_is_not_retry_exhausted :
  let run := request (alwaysFails noResponse) fixedUUID (mkConnector 2%Q false) listPayments world0 in
  let run503 := request (alwaysFails html503) fixedUUID (mkConnector 2%Q false) listPayments world0 in
  isRetryableError noResponse = true /\
  validEnvelope (responseDataOf noResponse) = false /\
  length (requestsOf (trace (snd run))) = 3%nat /\
  (exists d, fst run = inr (BadApiResponse d uuid0) /\
             field "code" d = Some (JString "NETWORK_ERROR") /\
             field "code" d <> Some (JString "RETRY_EXHAUSTED")) /\
  isRetryableError html503 = true /\
  validEnvelope (responseDataOf html503) = false /\
  length (requestsOf (trace (snd run503))) = 3%nat /\
  (exists d, fst run503 = inr (BadApiResponse d uuid0) /\
             field "code" d = Some (JString "HTTP_503") /\
             field "code" d <> Some (JString "RETRY_EXHAUSTED")).
Proof.
  repeat split; try (vm_compute; reflexivity).
  - eexists. split; [vm_compute; reflexivity|]. split; [reflexivity|discriminate].
  - eexists. split; [vm_compute; reflexivity|]. split; [reflexivity|discriminate].
Qed.

(** Always 503 with an HTML page, [retries = 3]: four requests. *)
Lemma always_503_four_attempts_witness :
  exists d w',
    request (alwaysFails html503) fixedUUID (mkConnector 3%Q true) listPayments world0
    = (inr (BadApiResponse d uuid0), w') /\
    field "code" d = Some (JString "HTTP_503") /\
    length (requestsOf (trace w')) = 4%nat /\
    delaysOf (trace w') = [1000; 2000; 4000].
Proof.
  destruct (always_503_four_attempts (alwaysFails html503) fixedUUID true listPayments world0)
    as (e & r & w' & evs & He & Hr & Hrun & Hcode & Htr & Hlen & Hdel).
  - intros n. exists html503, (mkResponse 503 "Service Unavailable" (JString "<html>503</html>")).
    split; [apply outcomeAt_alwaysFails|split; reflexivity].
  - rewrite outcomeAt_alwaysFails in He. inversion He; subst e.
    inversion Hr; subst r.
    exists (synthErrorData uuid0 html503), w'.
    rewrite Htr. repeat split; assumption.
Defined.


(** * More of the connector *)

Section PipelineHistory.

Context {T G : Type}.
Variable send : T -> AxiosRequestConfig -> (AxiosError + AxiosResponse) * T.
Variable genUUID : G -> string * G.

Implicit Types (self : Connector) (opts : RequestOpts) (w : World T G)
  (e : AxiosError) (attempt : Z) (key : string).

(** ** The test on the body *)

(** X1.  Whatever the body of the failed response is, the test on it
    raises nothing and leaves the world alone, and it succeeds exactly
    for an object whose own [type] is the string ['error']. *)
Theorem isValidYooKassaError_spec (d : JsValue) w :
  exists b : bool,
    isValidYooKassaError d w = (inr b, w) /\
    (b = true <-> exists fields : gmap string JsValue,
                    d = JObject fields /\ fields !! "type" = Some (JString "error")).
Proof.
  exists (validEnvelope d). split; [apply isValidYooKassaError_pure|].
  split.
  - destruct d as [| | b | n | s | fields]; cbn; try discriminate.
    destruct (fields !! "type") as [[| | b | n | s | f]|] eqn:Hty; try discriminate.
    intros Hs. apply String.eqb_eq in Hs. subst s. eauto.
  - intros (fields & -> & Hty). cbn. rewrite Hty. reflexivity.
Qed.

(** ** What a run of the loop has been through *)

(** A run of the loop that starts with attempts left: the [k] answers
    that it waited after were retryable failures.  It ends with a
    [return] in a turn, after [k + 1] requests, and then the last answer
    decides the result; or, only when [retries] is not whole, on the
    condition of the loop after [k] requests and as many waits, with the
    last failure as [lastError]. *)
Lemma attemptLoop_history self opts key (n : nat) :
  forall attempt (lastError : option AxiosError) w,
    Z.to_nat (Qfloor (retries self) + 1 - attempt) = n ->
    attempt <= Qfloor (retries self) ->
    exists (k : nat) res w' evs,
      attemptLoop send self opts key attempt lastError w = (inr res, w') /\
      (forall i, (i < k)%nat -> exists e,
          outcomeAt send i (transport w) (requestConfig opts key) = inl e /\
          isRetryableError e = true) /\
      entropy w' = entropy w /\
      trace w' = trace w ++ evs /\
      delaysOf evs = waitTime <$> seqZ attempt (Z.of_nat k) /\
      match res with
      | Returned r =>
          attempt + Z.of_nat k <= Qfloor (retries self) /\
          transport w' = afterCalls send (S k) (transport w) (requestConfig opts key) /\
          requestsOf evs = replicate (S k) (requestConfig opts key) /\
          match outcomeAt send k (transport w) (requestConfig opts key) with
          | inr resp => r = GoodApiResponse (data resp) key
          | inl e =>
              r = BadApiResponse
                    (if validEnvelope (responseDataOf e) then responseDataOf e
                     else synthErrorData key e) key /\
              (isRetryableError e = true ->
               attempt + Z.of_nat k = Qceiling (retries self))
          end
      | Exhausted lastError' =>
          attempt + Z.of_nat k = Qfloor (retries self) + 1 /\
          Qceiling (retries self) = Qfloor (retries self) + 1 /\
          transport w' = afterCalls send k (transport w) (requestConfig opts key) /\
          requestsOf evs = replicate k (requestConfig opts key) /\
          exists e,
            outcomeAt send (k - 1) (transport w) (requestConfig opts key) = inl e /\
            lastError' = Some e
      end.
Proof.
  set (cfg := requestConfig opts key).
  pose proof (floor_ceiling (retries self)) as Hfc.
  induction n as [|n IH]; intros attempt lastError w Hn Hle; [lia|].
  destruct (afterRequest_fields send cfg w) as (Ht1 & Hg1 & Htr1).
  match goal with
  | |- exists k res w' evs, ?run = _ /\ _ => pattern run
  end.
  match goal with
  | |- ?Q _ => set (P := Q)
  end.
  assert (Hends : forall r,
             (match fst (send (transport w) cfg) with
              | inr resp => r = GoodApiResponse (data resp) key
              | inl e =>
                  r = BadApiResponse
                        (if validEnvelope (responseDataOf e) then responseDataOf e
                         else synthErrorData key e) key /\
                  (isRetryableError e = true -> attempt = Qceiling (retries self))
              end) ->
             P (inr (Returned r), afterRequest send cfg w)).
  { intros r Hr. subst P. cbv beta.
    exists 0%nat, (Returned r), (afterRequest send cfg w), [EvRequest cfg].
    unfold outcomeAt. cbn [afterCalls]. rewrite Z.add_0_r.
    split; [reflexivity|].
    split; [intros i Hi; lia|].
    split; [exact Hg1|]. split; [exact Htr1|].
    split; [reflexivity|]. split; [exact Hle|].
    split; [exact Ht1|]. split; [reflexivity|].
    destruct (fst (send (transport w) cfg)); exact Hr. }
  rewrite attemptLoop_step.
  replace (attempt <=? Qfloor (retries self)) with true by lia.
  rewrite attemptOnce_eq. cbn zeta. fold cfg.
  destruct (fst (send (transport w) cfg)) as [e|resp] eqn:Hout;
    [|apply Hends; reflexivity].
  destruct (isRetryableError e) eqn:Hretry; cbn [negb];
    rewrite ?andb_true_r, ?andb_false_r.
  2: { destruct (validEnvelope (responseDataOf e)) eqn:Hvalid; cbn [andb];
         (apply Hends; split; [reflexivity|discriminate]). }
  destruct (attempt <? Qceiling (retries self)) eqn:Hlt.
  2: { apply Z.ltb_ge in Hlt.
       destruct (validEnvelope (responseDataOf e)) eqn:Hvalid; cbn [andb];
         (apply Hends; split; [reflexivity|intros _; lia]). }
  apply Z.ltb_lt in Hlt. clear Hends. subst P. cbv beta.
  destruct (afterBackoff_fields self attempt (afterRequest send cfg w)) as (Ht2 & Hg2 & Htr2).
  destruct (backoff_events self attempt) as [Hbr Hbd].
  set (pause := (if debug self then [EvLog (retryLogLine self attempt)] else [])
                  ++ [EvDelay (waitTime attempt)]) in *.
  destruct (Z.le_gt_cases (attempt + 1) (Qfloor (retries self))) as [Hmore|Hdone].
  - (* the loop goes on *)
    destruct (IH (attempt + 1) (Some e) (afterBackoff self attempt (afterRequest send cfg w)))
      as (k & res & w' & evs & Hrun & Hfail & Hg & Htr & Hdel & Hres);
      [lia|lia|].
    rewrite Ht2, Ht1 in Hfail, Hres.
    exists (S k), res, w', ([EvRequest cfg] ++ pause ++ evs).
    split; [exact Hrun|].
    split; [intros [|i] Hi;
            [exists e; unfold outcomeAt; cbn [afterCalls]; rewrite Hout; auto
            |apply (Hfail i); lia]|].
    split; [congruence|].
    split; [rewrite Htr, Htr2, Htr1, <- !app_assoc; reflexivity|].
    rewrite !requestsOf_app, !delaysOf_app, Hbr, Hbd, Hdel.
    split; [rewrite Nat2Z.inj_succ, (seqZ_cons attempt) by lia;
            rewrite Z.pred_succ; reflexivity|].
    destruct res as [r|lastError'].
    + destruct Hres as (Hk & Ht & Hreq & Hlast).
      split; [lia|]. split; [exact Ht|]. split; [rewrite Hreq; reflexivity|].
      unfold outcomeAt in *; cbn [afterCalls].
      destruct (fst (send (afterCalls send k (snd (send (transport w) cfg)) cfg) cfg))
        as [e'|resp']; [|exact Hlast].
      destruct Hlast as [Hr Hend]; split; [exact Hr|intros He'; specialize (Hend He'); lia].
    + destruct Hres as (Hk & Hhi & Ht & Hreq & e' & He' & Hle').
      split; [lia|]. split; [exact Hhi|]. split; [exact Ht|].
      split; [rewrite Hreq; reflexivity|].
      exists e'. split; [|exact Hle'].
      destruct k as [|k]; [lia|].
      replace (S (S k) - 1)%nat with (S k) by lia.
      replace (S k - 1)%nat with k in He' by lia.
      exact He'.
  - (* the loop ends on its condition *)
    rewrite (attemptLoop_exit send) by lia.
    exists 1%nat, (Exhausted (Some e)),
      (afterBackoff self attempt (afterRequest send cfg w)), ([EvRequest cfg] ++ pause).
    split; [reflexivity|].
    split; [intros i Hi; assert (i = 0%nat) as -> by lia;
            exists e; unfold outcomeAt; cbn [afterCalls]; rewrite Hout; auto|].
    split; [congruence|].
    split; [rewrite Htr2, Htr1, <- !app_assoc; reflexivity|].
    rewrite !requestsOf_app, !delaysOf_app, Hbr, Hbd.
    split; [reflexivity|].
    split; [lia|]. split; [lia|].
    split; [rewrite Ht2, Ht1; reflexivity|].
    split; [reflexivity|].
    exists e; unfold outcomeAt; cbn [Nat.sub afterCalls]; rewrite Hout; auto.
Qed.

(** The same for a whole call, when [retries >= 0]. *)
Lemma request_history self opts w :
  let key := idempotenceKeyOf genUUID opts w in
  let cfg := requestConfig opts key in
  (0 <= retries self)%Q ->
  exists (k : nat) r w' evs,
    request send genUUID self opts w = (inr r, w') /\
    (forall i, (i < k)%nat -> exists e,
        outcomeAt send i (transport w) cfg = inl e /\ isRetryableError e = true) /\
    trace w' = trace w ++ evs /\
    delaysOf evs = waitTime <$> seqZ 0 (Z.of_nat k) /\
    Z.of_nat k <= Qceiling (retries self) /\
    ((Z.of_nat k <= Qfloor (retries self) /\
      transport w' = afterCalls send (S k) (transport w) cfg /\
      requestsOf evs = replicate (S k) cfg /\
      match outcomeAt send k (transport w) cfg with
      | inr resp => r = GoodApiResponse (data resp) key
      | inl e =>
          r = BadApiResponse
                (if validEnvelope (responseDataOf e) then responseDataOf e
                 else synthErrorData key e) key /\
          (isRetryableError e = true -> Z.of_nat k = Qceiling (retries self))
      end) \/
     (Z.of_nat k = Qfloor (retries self) + 1 /\
      Qceiling (retries self) = Qfloor (retries self) + 1 /\
      transport w' = afterCalls send k (transport w) cfg /\
      requestsOf evs = replicate k cfg /\
      exists e,
        outcomeAt send (k - 1) (transport w) cfg = inl e /\
        r = BadApiResponse (exhaustedErrorData key (Some e)) key)).
Proof.
  intros key cfg Hpos.
  apply (proj1 (le_floor 0 (retries self))) in Hpos.
  pose proof (floor_ceiling (retries self)) as Hfc.
  destruct (attemptLoop_history self opts key _ 0 None (afterKey genUUID opts w) eq_refl Hpos)
    as (k & res & w' & evs & Hrun & Hfail & _ & Htr & Hdel & Hres).
  fold key cfg in Hfail, Hres. cbn [afterKey transport trace] in *.
  rewrite request_eq. cbv zeta. fold key. rewrite Hrun.
  destruct res as [r|lastError'].
  - destruct Hres as (Hk & Ht & Hreq & Hlast).
    exists k, r, w', evs.
    split; [reflexivity|]. split; [exact Hfail|]. split; [exact Htr|].
    split; [exact Hdel|]. split; [lia|].
    left. repeat split; try assumption; lia.
  - destruct Hres as (Hk & Hhi & Ht & Hreq & e & He & ->).
    eexists k, _, w', evs.
    split; [reflexivity|]. split; [exact Hfail|]. split; [exact Htr|].
    split; [exact Hdel|]. split; [lia|].
    right. split; [lia|]. split; [exact Hhi|]. split; [exact Ht|]. split; [exact Hreq|].
    exists e. split; [exact He|reflexivity].
Qed.

(** ** How many attempts *)

Lemma floor_succ_le (a : Z) (q : Q) : a <= Qfloor q + 1 -> (inject_Z a <= q + 1)%Q.
Proof.
  intros Ha. apply Qle_trans with (inject_Z (Qfloor q + 1)).
  - rewrite <- Zle_Qle. exact Ha.
  - rewrite inject_Z_plus. apply Qplus_le_compat; [apply Qfloor_le|apply Qle_refl].
Qed.

(** X2.  With [retries >= 0], whole or not, a call sends at least one
    and at most [retries + 1] requests, whatever the client answers, and
    the client has been called exactly once per request.  It waits after
    every request but the last one; it waits after the last one as well
    only when [retries] is not whole and the last answer was a retryable
    failure. *)
Theorem attempts_bounded self opts w :
  let cfg := requestConfig opts (idempotenceKeyOf genUUID opts w) in
  (0 <= retries self)%Q ->
  exists r w' evs,
    request send genUUID self opts w = (inr r, w') /\
    trace w' = trace w ++ evs /\
    (1 <= length (requestsOf evs))%nat /\
    (inject_Z (Z.of_nat (length (requestsOf evs))) <= retries self + 1)%Q /\
    (length (delaysOf evs) <= length (requestsOf evs) <= S (length (delaysOf evs)))%nat /\
    ((retries self == inject_Z (Qfloor (retries self)))%Q ->
     length (requestsOf evs) = S (length (delaysOf evs))) /\
    (length (requestsOf evs) = length (delaysOf evs) ->
     exists e,
       outcomeAt send (length (requestsOf evs) - 1) (transport w) cfg = inl e /\
       isRetryableError e = true) /\
    transport w' = afterCalls send (length (requestsOf evs)) (transport w) cfg.
Proof.
  intros cfg Hpos.
  destruct (request_history self opts w Hpos)
    as (k & r & w' & evs & Hrun & Hfail & Htr & Hdel & _ & Hcase).
  fold cfg in Hfail, Hcase.
  apply (proj1 (le_floor 0 (retries self))) in Hpos.
  exists r, w', evs.
  split; [exact Hrun|]. split; [exact Htr|].
  rewrite Hdel, length_fmap, length_seqZ, Nat2Z.id.
  destruct Hcase as [(Hk & Ht & Hreq & _)|(Hk & Hhi & Ht & Hreq & _)];
    rewrite Hreq, length_replicate.
  - split; [lia|]. split; [apply floor_succ_le; lia|]. split; [lia|].
    split; [reflexivity|]. split; [lia|exact Ht].
  - split; [lia|]. split; [apply floor_succ_le; lia|]. split; [lia|].
    split.
    { intros Hwhole. destruct (whole_floor_ceiling _ _ Hwhole) as [_ Hc]. lia. }
    split; [intros _; apply Hfail; lia|exact Ht].
Qed.

(** X3.  A call never sends another request after an answer that is not
    a retryable failure: every request but the last one of a call was
    answered with a failure that [isRetryableError] accepts. *)
Theorem retried_only_after_retryable_failure self opts w :
  let cfg := requestConfig opts (idempotenceKeyOf genUUID opts w) in
  exists r w' evs,
    request send genUUID self opts w = (inr r, w') /\
    trace w' = trace w ++ evs /\
    forall i, (S i < length (requestsOf evs))%nat ->
      exists e, outcomeAt send i (transport w) cfg = inl e /\ isRetryableError e = true.
Proof.
  intros cfg.
  destruct (Qlt_le_dec (retries self) 0) as [Hneg|Hpos].
  - destruct (request_inv send genUUID self opts w)
      as (r & w' & evs & Hrun & _ & _ & Htr & _ & _ & _ & Hnil).
    exists r, w', evs. repeat split; try assumption.
    intros i Hi. rewrite (Hnil Hneg) in Hi. cbn in Hi. lia.
  - destruct (request_history self opts w Hpos)
      as (k & r & w' & evs & Hrun & Hfail & Htr & _ & _ & Hcase).
    exists r, w', evs. repeat split; try assumption.
    intros i Hi. apply Hfail.
    destruct Hcase as [(_ & _ & Hreq & _)|(_ & _ & _ & Hreq & _)];
      rewrite Hreq, length_replicate in Hi; lia.
Qed.

(** X4.  With [retries >= 0] the result is ['OK'] exactly when the last
    request of the call was answered with a response, and then [data] is
    the body of that response. *)
Theorem ok_iff_last_request_resolved self opts w :
  let key := idempotenceKeyOf genUUID opts w in
  let cfg := requestConfig opts key in
  (0 <= retries self)%Q ->
  exists r w' evs,
    request send genUUID self opts w = (inr r, w') /\
    trace w' = trace w ++ evs /\
    (success r = "OK" <->
     exists resp,
       outcomeAt send (length (requestsOf evs) - 1) (transport w) cfg = inr resp) /\
    (forall resp,
       outcomeAt send (length (requestsOf evs) - 1) (transport w) cfg = inr resp ->
       r = GoodApiResponse (data resp) key).
Proof.
  intros key cfg Hpos.
  destruct (request_history self opts w Hpos)
    as (k & r & w' & evs & Hrun & _ & Htr & _ & _ & Hcase).
  exists r, w', evs. fold key cfg in Hcase.
  split; [exact Hrun|]. split; [exact Htr|].
  destruct Hcase as [(_ & _ & Hreq & Hlast)|(_ & _ & _ & Hreq & e & He & ->)];
    rewrite Hreq, length_replicate.
  - replace (S k - 1)%nat with k by lia.
    destruct (outcomeAt send k (transport w) cfg) as [e|resp].
    + destruct Hlast as [-> _]. split.
      * split; [discriminate|]. intros (resp & Hresp). discriminate.
      * intros resp Hresp. discriminate.
    + subst r. split.
      * split; eauto.
      * intros resp' Hresp. inversion Hresp. reflexivity.
  - rewrite He. split.
    + split; [discriminate|]. intros (resp & Hresp). discriminate.
    + intros resp Hresp. discriminate.
Qed.

(** X5.  When the first [k] answers are retryable failures, the next
    answer is a response and [k <= retries], the call returns ['OK'] with
    the body of that response, after [k + 1] requests and the waits
    1000, 2000, ..., [1000 * 2 ^ (k - 1)]. *)
Theorem success_after_failures self opts w (k : nat) resp :
  let key := idempotenceKeyOf genUUID opts w in
  let cfg := requestConfig opts key in
  (inject_Z (Z.of_nat k) <= retries self)%Q ->
  (forall i, (i < k)%nat -> exists e,
      outcomeAt send i (transport w) cfg = inl e /\ isRetryableError e = true) ->
  outcomeAt send k (transport w) cfg = inr resp ->
  exists w' evs,
    request send genUUID self opts w = (inr (GoodApiResponse (data resp) key), w') /\
    trace w' = trace w ++ evs /\
    length (requestsOf evs) = S k /\
    delaysOf evs = (fun i => 1000 * 2 ^ i) <$> seqZ 0 (Z.of_nat k).
Proof.
  intros key cfg Hk Hfail Hresp.
  apply le_floor in Hk.
  pose proof (floor_ceiling (retries self)) as Hfc.
  destruct (retry_chain send self opts key k 0 None (afterKey genUUID opts w))
    as (le' & w1 & evs & Hrun & Ht & _ & Htr & Hreq & Hdel & _).
  { lia. }
  { exact Hfail. }
  cbn [afterKey transport trace] in Ht, Htr. fold cfg in Ht.
  rewrite Z.add_0_l in Hrun.
  destruct (afterRequest_fields send cfg w1) as (_ & _ & Htr1).
  exists (afterRequest send cfg w1), (evs ++ [EvRequest cfg]).
  split.
  { rewrite request_eq. cbv zeta. fold key. rewrite Hrun.
    rewrite attemptLoop_step.
    replace (Z.of_nat k <=? Qfloor (retries self)) with true by lia.
    rewrite attemptOnce_eq. cbn zeta. fold cfg.
    unfold outcomeAt in Hresp. rewrite <- Ht in Hresp. rewrite Hresp. reflexivity. }
  split; [rewrite Htr1, Htr, <- app_assoc; reflexivity|].
  rewrite requestsOf_app, delaysOf_app, length_app, Hreq, Hdel, app_nil_r. cbn.
  split; [lia|reflexivity].
Qed.

(** ** How long a call waits *)

Lemma sum_waitTime (k : nat) :
  forall a, 0 <= a ->
    foldr Z.add 0 (waitTime <$> seqZ a (Z.of_nat k)) = 1000 * 2 ^ a * (2 ^ Z.of_nat k - 1).
Proof.
  induction k as [|k IH]; intros a Ha.
  - change (Z.of_nat 0) with 0. rewrite seqZ_nil, Z.pow_0_r by lia. cbn. ring.
  - rewrite Nat2Z.inj_succ, seqZ_cons by lia. rewrite Z.pred_succ. cbn [fmap list_fmap foldr].
    change (foldr Z.add 0 (list_fmap Z Z waitTime (seqZ (Z.succ a) (Z.of_nat k))))
      with (foldr Z.add 0 (waitTime <$> seqZ (Z.succ a) (Z.of_nat k))).
    rewrite IH by lia. unfold waitTime, RETRY_DELAY.
    rewrite !Z.pow_succ_r by lia. ring.
Qed.

(** X6.  The waits that a call asks for (the arguments of [delay]) add
    up to [1000 * (2 ^ m - 1)] ms, where [m] is the number of waits; with
    [retries >= 0] there are at most [ceil retries] waits, which is
    [retries] when it is whole, so that the sum is at most
    [1000 * (2 ^ ceil retries - 1)] ms, whatever the client answers. *)
Theorem total_wait_closed_form self opts w :
  exists r w' evs,
    request send genUUID self opts w = (inr r, w') /\
    trace w' = trace w ++ evs /\
    totalWait evs = 1000 * (2 ^ Z.of_nat (length (delaysOf evs)) - 1) /\
    ((0 <= retries self)%Q ->
     Z.of_nat (length (delaysOf evs)) <= Qceiling (retries self) /\
     totalWait evs <= 1000 * (2 ^ Qceiling (retries self) - 1)).
Proof.
  destruct (request_inv send genUUID self opts w)
    as (r & w' & evs & Hrun & _ & _ & Htr & _ & Hdel & Hlen & _).
  exists r, w', evs.
  assert (Hsum : totalWait evs = 1000 * (2 ^ Z.of_nat (length (delaysOf evs)) - 1)).
  { unfold totalWait. rewrite Hdel at 1. rewrite sum_waitTime by lia.
    change (2 ^ 0) with 1. lia. }
  split; [exact Hrun|]. split; [exact Htr|]. split; [exact Hsum|].
  intros Hpos.
  destruct (request_history self opts w Hpos)
    as (k & r2 & w2 & evs2 & Hrun2 & _ & Htr2 & Hdel2 & Hk & _).
  rewrite Hrun in Hrun2. inversion Hrun2; subst r2 w2.
  rewrite Htr in Htr2. apply app_inv_head in Htr2. subst evs2.
  assert (Hm : Z.of_nat (length (delaysOf evs)) <= Qceiling (retries self))
    by (rewrite Hdel2, length_fmap, length_seqZ, Nat2Z.id; exact Hk).
  split; [exact Hm|].
  rewrite Hsum.
  assert (Hpow : 2 ^ Z.of_nat (length (delaysOf evs)) <= 2 ^ Qceiling (retries self))
    by (apply Z.pow_le_mono_r; lia).
  lia.
Qed.

(** ** The shape of an error result *)

Lemma validEnvelope_field (d : JsValue) :
  validEnvelope d = true -> field "type" d = Some (JString "error").
Proof.
  destruct d as [| | b | n | s | fields]; cbn; try discriminate.
  destruct (fields !! "type") as [[| | b | n | s | f]|]; try discriminate.
  intros Hs. apply String.eqb_eq in Hs. subst s. reflexivity.
Qed.

(** X7.  Whatever the client answers and whatever [retries] is, the
    [errorData] of a ['NO_OK'] result is an object whose [type] is the
    string ['error']: the body of an error of the API, or an object built
    by the connector. *)
Theorem error_payload_is_error_object self opts w :
  exists r w',
    request send genUUID self opts w = (inr r, w') /\
    forall d k, r = BadApiResponse d k -> field "type" d = Some (JString "error").
Proof.
  destruct (Qlt_le_dec (retries self) 0) as [Hneg|Hpos].
  - rewrite (negative_retries_exhausted send genUUID self opts w Hneg).
    eexists _, _. split; [reflexivity|].
    intros d key Hr. inversion Hr; subst d key. reflexivity.
  - destruct (request_history self opts w Hpos)
      as (k & r & w' & evs & Hrun & _ & _ & _ & _ & Hcase).
    exists r, w'. split; [exact Hrun|]. intros d key Hr.
    destruct Hcase as [(_ & _ & _ & Hlast)|(_ & _ & _ & _ & e & _ & Hbad)].
    + destruct (outcomeAt send k (transport w)
                  (requestConfig opts (idempotenceKeyOf genUUID opts w))) as [e|resp].
      * destruct Hlast as [Hbad _]. rewrite Hbad in Hr. inversion Hr; subst d key.
        destruct (validEnvelope (responseDataOf e)) eqn:Hvalid.
        -- apply validEnvelope_field. exact Hvalid.
        -- reflexivity.
      * rewrite Hlast in Hr. discriminate.
    + rewrite Hbad in Hr. inversion Hr; subst d key. reflexivity.
Qed.

(** ** Errors of the API that are retryable *)

(** X8.  A failure that is retryable (5xx or 429) and carries an error
    object of the API is not returned while attempts remain: the loop
    waits and goes to the next attempt; at the last attempt the body is
    returned as it came. *)
Theorem structured_retryable_failure self opts key attempt (lastError : option AxiosError) w e :
  (inject_Z attempt <= retries self)%Q ->
  fst (send (transport w) (requestConfig opts key)) = inl e ->
  validEnvelope (responseDataOf e) = true ->
  isRetryableError e = true ->
  attemptLoop send self opts key attempt lastError w =
  if jsLt attempt (retries self) then
    attemptLoop send self opts key (attempt + 1) (Some e)
      (afterBackoff self attempt (afterRequest send (requestConfig opts key) w))
  else
    (inr (Returned (BadApiResponse (responseDataOf e) key)),
     afterRequest send (requestConfig opts key) w).
Proof.
  intros Hle He Hvalid Hretry. apply le_floor in Hle.
  rewrite attemptLoop_step.
  replace (attempt <=? Qfloor (retries self)) with true by lia.
  rewrite attemptOnce_eq. cbn zeta. rewrite He, Hvalid, Hretry, jsLt_ceiling. cbn.
  rewrite andb_true_r.
  destruct (attempt <? Qceiling (retries self)); reflexivity.
Qed.

(** ** What is sent *)

(** X9.  Every request of a call is the same: the method, the endpoint
    as URL and the parameters of the caller, the data of the caller for
    a POST and no data otherwise, and the key as the only header. *)
Theorem all_attempts_send_same_request self opts w :
  let key := idempotenceKeyOf genUUID opts w in
  exists r w' evs,
    request send genUUID self opts w = (inr r, w') /\
    trace w' = trace w ++ evs /\
    Forall (fun cfg =>
              cfg_method cfg = method opts /\
              cfg_url cfg = endpoint opts /\
              cfg_params cfg = params opts /\
              cfg_data cfg = match method opts with
                             | POST => opts_data opts
                             | GET | DELETE => JUndefined
                             end /\
              cfg_headers cfg = {[ "Idempotence-Key" := key ]})
           (requestsOf evs).
Proof.
  intros key.
  destruct (request_inv send genUUID self opts w)
    as (r & w' & evs & Hrun & _ & _ & Htr & Hreq & _).
  exists r, w', evs. repeat split; try assumption.
  eapply Forall_impl; [exact Hreq|].
  intros cfg <-. cbn. repeat split. destruct (method opts); reflexivity.
Qed.

(** ** Edges of [retries] *)

(** X11.  With a negative [retries] the loop is not entered: no request
    is sent, the client is left alone, and the result is an error built
    after the loop, with the key as [id], the code ['RETRY_EXHAUSTED']
    and the description ['All retry attempts failed']. *)
Theorem no_attempt_with_negative_retries self opts w :
  let key := idempotenceKeyOf genUUID opts w in
  (retries self < 0)%Q ->
  exists d w',
    request send genUUID self opts w = (inr (BadApiResponse d key), w') /\
    trace w' = trace w /\
    transport w' = transport w /\
    field "id" d = Some (JString key) /\
    field "code" d = Some (JString "RETRY_EXHAUSTED") /\
    field "description" d = Some (JString "All retry attempts failed").
Proof.
  intros key Hneg.
  rewrite (negative_retries_exhausted send genUUID self opts w Hneg).
  eexists _, _. split; [reflexivity|]. repeat split.
Qed.

(** X12.  When every answer of the client, up to attempt [floor retries],
    is a retryable failure (with or without an error object of the API)
    and [retries >= 0], the call sends [floor retries + 1] requests and
    returns an error object.  With a whole [retries] it waits
    [1000 * 2 ^ i] ms after attempt [i] for every [i < retries], and the
    error is the body of the last failure when that is an error object
    of the API, otherwise the error that the connector builds from the
    last failure in the loop.  With a [retries] that is not whole it
    waits after the last attempt as well, and the error is the one built
    after the loop from the code and the message of the last failure,
    whatever its body is. *)
Theorem exhaustion_after_retryable_failures self opts w :
  let key := idempotenceKeyOf genUUID opts w in
  let cfg := requestConfig opts key in
  let last := Qfloor (retries self) in
  (0 <= retries self)%Q ->
  (forall n, Z.of_nat n <= last -> exists e,
      outcomeAt send n (transport w) cfg = inl e /\ isRetryableError e = true) ->
  exists e fields w' evs,
    outcomeAt send (Z.to_nat last) (transport w) cfg = inl e /\
    request send genUUID self opts w = (inr (BadApiResponse (JObject fields) key), w') /\
    fields !! "type" = Some (JString "error") /\
    trace w' = trace w ++ evs /\
    Z.of_nat (length (requestsOf evs)) = last + 1 /\
    if Qeq_bool (retries self) (inject_Z last) then
      (validEnvelope (responseDataOf e) = true -> JObject fields = responseDataOf e) /\
      (validEnvelope (responseDataOf e) = false -> JObject fields = synthErrorData key e) /\
      delaysOf evs = (fun i => 1000 * 2 ^ i) <$> seqZ 0 last
    else
      JObject fields = exhaustedErrorData key (Some e) /\
      delaysOf evs = (fun i => 1000 * 2 ^ i) <$> seqZ 0 (last + 1).
Proof.
  intros key cfg last Hpos Hfail.
  apply (proj1 (le_floor 0 (retries self))) in Hpos. fold last in Hpos.
  destruct (Qeq_bool (retries self) (inject_Z last)) eqn:Hwhole.
  - apply Qeq_bool_eq in Hwhole.
    destruct (whole_floor_ceiling _ _ Hwhole) as [_ Hhi].
    destruct (request_all_retryable send genUUID self opts w last eq_refl Hhi Hpos Hfail)
      as (e & w' & evs & He & Hrun & Htr & Hreq & Hdel).
    fold key cfg in He, Hrun.
    assert (Hlen : Z.of_nat (length (requestsOf evs)) = last + 1) by lia.
    destruct (validEnvelope (responseDataOf e)) eqn:Hvalid.
    + pose proof (validEnvelope_field _ Hvalid) as Hty.
      destruct (responseDataOf e) as [| | b | n | s | fields] eqn:Hbody; try discriminate.
      exists e, fields, w', evs.
      split; [exact He|]. split; [exact Hrun|]. split; [exact Hty|].
      split; [exact Htr|]. split; [exact Hlen|].
      split; [intros _; congruence|]. split; [congruence|exact Hdel].
    + eexists e, _, w', evs.
      split; [exact He|]. split; [exact Hrun|]. split; [reflexivity|].
      split; [exact Htr|]. split; [exact Hlen|].
      split; [intros H; congruence|]. split; [intros _; reflexivity|exact Hdel].
  - apply fraction_floor_ceiling in Hwhole.
    destruct (request_all_retryable_fraction send genUUID self opts w last eq_refl Hwhole
                Hpos Hfail)
      as (e & w' & evs & He & Hrun & Htr & Hreq & Hdel).
    fold key cfg in He, Hrun.
    eexists e, _, w', evs.
    split; [exact He|]. split; [exact Hrun|]. split; [reflexivity|].
    split; [exact Htr|]. split; [lia|].
    split; [reflexivity|exact Hdel].
Qed.

End PipelineHistory.

(** ** The debug mode *)

Lemma withoutLogs_app (l1 l2 : list Event) :
  withoutLogs (l1 ++ l2) = withoutLogs l1 ++ withoutLogs l2.
Proof. apply List.filter_app. Qed.

Lemma logsOf_app (l1 l2 : list Event) : logsOf (l1 ++ l2) = logsOf l1 ++ logsOf l2.
Proof. apply omap_app. Qed.

Lemma backoff_logs (self : Connector) (attempt : Z) :
  let evs := (if debug self then [EvLog (retryLogLine self attempt)] else [])
               ++ [EvDelay (waitTime attempt)] in
  withoutLogs evs = [EvDelay (waitTime attempt)] /\
  length (logsOf evs) = (if debug self then 1%nat else 0%nat).
Proof. destruct (debug self); split; reflexivity. Qed.

Section DebugMode.

Context {T1 T2 G : Type}.
Variable send1 : T1 -> AxiosRequestConfig -> (AxiosError + AxiosResponse) * T1.
Variable send2 : T2 -> AxiosRequestConfig -> (AxiosError + AxiosResponse) * T2.
Variable genUUID : G -> string * G.
Variable R : T1 -> T2 -> Prop.

Implicit Types (opts : RequestOpts) (attempt : Z) (key : string).

(** Two connectors with the same [retries], each with its own client:
    when the clients answer alike, the two go through the loop in the
    same way, whatever [debug] is in each. *)
Lemma attemptLoop_debug (self1 self2 : Connector) opts key (n : nat) :
  sameAnswers send1 send2 R ->
  (retries self1 == retries self2)%Q ->
  forall attempt (lastError : option AxiosError) (w1 : World T1 G) (w2 : World T2 G),
    Z.to_nat (Qfloor (retries self1) + 1 - attempt) = n ->
    R (transport w1) (transport w2) ->
    entropy w1 = entropy w2 ->
    exists res w1' w2' evs1 evs2,
      attemptLoop send1 self1 opts key attempt lastError w1 = (inr res, w1') /\
      attemptLoop send2 self2 opts key attempt lastError w2 = (inr res, w2') /\
      R (transport w1') (transport w2') /\
      entropy w1' = entropy w2' /\
      trace w1' = trace w1 ++ evs1 /\
      trace w2' = trace w2 ++ evs2 /\
      withoutLogs evs1 = withoutLogs evs2 /\
      length (logsOf evs1) = (if debug self1 then length (delaysOf evs1) else 0%nat) /\
      length (logsOf evs2) = (if debug self2 then length (delaysOf evs2) else 0%nat).
Proof.
  intros Hsame Hret. set (cfg := requestConfig opts key).
  assert (Hlo : Qfloor (retries self2) = Qfloor (retries self1))
    by (symmetry; apply Qfloor_comp; exact Hret).
  assert (Hhi : Qceiling (retries self2) = Qceiling (retries self1))
    by (symmetry; apply Qceiling_comp; exact Hret).
  induction n as [|n IH]; intros attempt lastError w1 w2 Hn HR Hg.
  { (* no attempt is left *)
    exists (Exhausted lastError), w1, w2, [], [].
    rewrite (attemptLoop_exit send1), (attemptLoop_exit send2) by lia.
    rewrite !app_nil_r.
    split; [reflexivity|]. split; [reflexivity|].
    split; [exact HR|]. split; [exact Hg|].
    split; [reflexivity|]. split; [reflexivity|]. split; [reflexivity|].
    split; [destruct (debug self1)|destruct (debug self2)]; reflexivity. }
  destruct (afterRequest_fields send1 cfg w1) as (Ht1 & Hg1 & Htr1).
  destruct (afterRequest_fields send2 cfg w2) as (Ht2 & Hg2 & Htr2).
  destruct (Hsame (transport w1) (transport w2) cfg HR) as [Hout HR'].
  assert (Hends : forall r,
             exists res w1' w2' evs1 evs2,
               (inr (Returned r), afterRequest send1 cfg w1)
               = (inr (B:=LoopResult) (A:=JsException) res, w1') /\
               (inr (Returned r), afterRequest send2 cfg w2)
               = (inr (B:=LoopResult) (A:=JsException) res, w2') /\
               R (transport w1') (transport w2') /\
               entropy w1' = entropy w2' /\
               trace w1' = trace w1 ++ evs1 /\
               trace w2' = trace w2 ++ evs2 /\
               withoutLogs evs1 = withoutLogs evs2 /\
               length (logsOf evs1) = (if debug self1 then length (delaysOf evs1) else 0%nat) /\
               length (logsOf evs2) = (if debug self2 then length (delaysOf evs2) else 0%nat)).
  { intros r.
    exists (Returned r), (afterRequest send1 cfg w1), (afterRequest send2 cfg w2),
      [EvRequest cfg], [EvRequest cfg].
    split; [reflexivity|]. split; [reflexivity|].
    split; [rewrite Ht1, Ht2; exact HR'|].
    split; [congruence|]. split; [exact Htr1|]. split; [exact Htr2|].
    split; [reflexivity|].
    split; [destruct (debug self1)|destruct (debug self2)]; reflexivity. }
  rewrite (attemptLoop_step send1), (attemptLoop_step send2), Hlo.
  replace (attempt <=? Qfloor (retries self1)) with true by lia.
  rewrite (attemptOnce_eq send1), (attemptOnce_eq send2). cbn zeta. fold cfg.
  rewrite Hhi, Hout.
  destruct (fst (send2 (transport w2) cfg)) as [e|resp]; [|apply Hends].
  destruct (validEnvelope (responseDataOf e) && negb (isRetryableError e)); [apply Hends|].
  destruct ((attempt <? Qceiling (retries self1)) && isRetryableError e) eqn:Hcont;
    [|destruct (validEnvelope (responseDataOf e)); apply Hends].
  clear Hends.
  destruct (afterBackoff_fields self1 attempt (afterRequest send1 cfg w1)) as (Hb1 & Hbg1 & Hbtr1).
  destruct (afterBackoff_fields self2 attempt (afterRequest send2 cfg w2)) as (Hb2 & Hbg2 & Hbtr2).
  destruct (backoff_logs self1 attempt) as [Hwl1 Hlog1].
  destruct (backoff_logs self2 attempt) as [Hwl2 Hlog2].
  destruct (backoff_events self1 attempt) as [_ Hbd1].
  destruct (backoff_events self2 attempt) as [_ Hbd2].
  destruct (IH (attempt + 1) (Some e)
              (afterBackoff self1 attempt (afterRequest send1 cfg w1))
              (afterBackoff self2 attempt (afterRequest send2 cfg w2)))
    as (res & w1' & w2' & evs1 & evs2 & Hrun1 & Hrun2 & Htt & Hgg & Htra1 & Htra2
        & Hwl & Hl1 & Hl2).
  { lia. }
  { rewrite Hb1, Hb2, Ht1, Ht2. exact HR'. }
  { congruence. }
  set (pause1 := (if debug self1 then [EvLog (retryLogLine self1 attempt)] else [])
                   ++ [EvDelay (waitTime attempt)]) in *.
  set (pause2 := (if debug self2 then [EvLog (retryLogLine self2 attempt)] else [])
                   ++ [EvDelay (waitTime attempt)]) in *.
  exists res, w1', w2', ([EvRequest cfg] ++ pause1 ++ evs1), ([EvRequest cfg] ++ pause2 ++ evs2).
  split; [exact Hrun1|]. split; [exact Hrun2|].
  split; [exact Htt|]. split; [exact Hgg|].
  split; [rewrite Htra1, Hbtr1, Htr1, <- !app_assoc; reflexivity|].
  split; [rewrite Htra2, Hbtr2, Htr2, <- !app_assoc; reflexivity|].
  rewrite !withoutLogs_app, !logsOf_app, !delaysOf_app, !length_app.
  rewrite Hwl1, Hwl2, Hwl, Hlog1, Hlog2, Hl1, Hl2, Hbd1, Hbd2.
  split; [reflexivity|].
  split; [destruct (debug self1)|destruct (debug self2)]; reflexivity.
Qed.

(** X10.  The line that [request] prints before a wait is all that
    [debug] changes in [request].  Take two connectors with the same
    [retries], each with its own client (the client of a connector
    built with [debug] has the logging interceptors, whose output is the
    business of the client), and let the two clients answer alike: then
    the two calls give the same result, leave the clients in states that
    answer alike and the generator in the same state, and send the same
    requests with the same waits; [request] itself prints nothing
    without [debug], and one line per wait with [debug]. *)
Theorem debug_only_adds_log_lines (self1 self2 : Connector) opts
    (w1 : World T1 G) (w2 : World T2 G) :
  sameAnswers send1 send2 R ->
  (retries self1 == retries self2)%Q ->
  R (transport w1) (transport w2) ->
  entropy w1 = entropy w2 ->
  exists r w1' w2' evs1 evs2,
    request send1 genUUID self1 opts w1 = (inr r, w1') /\
    request send2 genUUID self2 opts w2 = (inr r, w2') /\
    R (transport w1') (transport w2') /\
    entropy w1' = entropy w2' /\
    trace w1' = trace w1 ++ evs1 /\
    trace w2' = trace w2 ++ evs2 /\
    withoutLogs evs1 = withoutLogs evs2 /\
    length (logsOf evs1) = (if debug self1 then length (delaysOf evs1) else 0%nat) /\
    length (logsOf evs2) = (if debug self2 then length (delaysOf evs2) else 0%nat).
Proof.
  intros Hsame Hret HR Hg.
  assert (Hkey : idempotenceKeyOf genUUID opts w2 = idempotenceKeyOf genUUID opts w1)
    by (unfold idempotenceKeyOf; rewrite Hg; reflexivity).
  destruct (attemptLoop_debug self1 self2 opts (idempotenceKeyOf genUUID opts w1) _ Hsame Hret
              0 None (afterKey genUUID opts w1) (afterKey genUUID opts w2) eq_refl)
    as (res & w1' & w2' & evs1 & evs2 & Hrun1 & Hrun2 & Rest).
  { exact HR. }
  { unfold afterKey, entropyAfterKey. cbn. rewrite Hg. reflexivity. }
  rewrite !request_eq. cbv zeta. rewrite Hkey, Hrun1, Hrun2.
  destruct res as [r|lastError'].
  - exists r, w1', w2', evs1, evs2.
    split; [reflexivity|]. split; [reflexivity|]. exact Rest.
  - eexists _, w1', w2', evs1, evs2.
    split; [reflexivity|]. split; [reflexivity|]. exact Rest.
Qed.

End DebugMode.

(** ** The constructor and the calls *)

Section ConstructionFacts.

Context {T G : Type}.
Variable send : T -> AxiosRequestConfig -> (AxiosError + AxiosResponse) * T.
Variable genUUID : G -> string * G.
Variable acceptsProxy : string -> bool.

Lemma newConnector_fields (init : Init.ConnectorOpts) (c : ConnectorInstance) :
  newConnector acceptsProxy init = inr c ->
  instEndpoint c = stripTrailingSlashes (str_or (Init.endpoint init) DEFAULT_ENDPOINT) /\
  baseURL (axiosConfig c) = instEndpoint c /\
  instRetries c = nullish (Init.retries init) (inject_Z DEFAULT_RETRIES) /\
  instDebug c = nullish (Init.debug init) false.
Proof.
  unfold newConnector.
  destruct (proxyAgent acceptsProxy (Init.proxy init)) as [exn|agent]; [discriminate|].
  intros Hc. inversion Hc; subst c. cbn. repeat split.
Qed.

(** X13.  A connector built without [retries] has 5 of them: whatever
    the client answers, a call sends at most 6 requests and waits at most
    31000 ms in all. *)
Theorem default_retries_bounds (init : Init.ConnectorOpts) (c : ConnectorInstance)
    (opts : RequestOpts) (w : World T G) :
  newConnector acceptsProxy init = inr c ->
  Init.retries init = None ->
  exists r w' evs,
    request send genUUID (connectorOf c) opts w = (inr r, w') /\
    trace w' = trace w ++ evs /\
    (length (requestsOf evs) <= 6)%nat /\
    totalWait evs <= 31000.
Proof.
  intros Hc Hnone.
  destruct (newConnector_fields init c Hc) as (_ & _ & Hretries & _).
  rewrite Hnone in Hretries. cbn in Hretries.
  set (self := connectorOf c).
  assert (Hret : retries self = inject_Z 5) by exact Hretries.
  assert (Hlo : Qfloor (retries self) = 5) by (rewrite Hret; reflexivity).
  assert (Hhi : Qceiling (retries self) = 5) by (rewrite Hret; reflexivity).
  destruct (request_history send genUUID self opts w)
    as (k & r & w' & evs & Hrun & _ & Htr & Hdel & Hk & Hcase).
  { rewrite Hret. discriminate. }
  exists r, w', evs. rewrite Hhi in Hk.
  split; [exact Hrun|]. split; [exact Htr|].
  split; [destruct Hcase as [(_ & _ & Hreq & _)|(_ & Hfrac & _)];
          [rewrite Hreq, length_replicate|]; lia|].
  unfold totalWait. rewrite Hdel, sum_waitTime by lia.
  assert (Hpow : 2 ^ Z.of_nat k <= 2 ^ 5) by (apply Z.pow_le_mono_r; lia).
  change (2 ^ 0) with 1. change (2 ^ 5) with 32 in Hpow. lia.
Qed.

(** X14.  [retries: 0] is kept by the constructor (it is not replaced by
    the default): a connector built with it sends exactly one request per
    call and never waits, whatever the client answers. *)
Theorem zero_retries_single_attempt (init : Init.ConnectorOpts) (c : ConnectorInstance)
    (opts : RequestOpts) (w : World T G) :
  newConnector acceptsProxy init = inr c ->
  Init.retries init = Some 0%Q ->
  exists r w',
    request send genUUID (connectorOf c) opts w = (inr r, w') /\
    trace w' = trace w ++ [EvRequest (requestConfig opts (idempotenceKeyOf genUUID opts w))].
Proof.
  intros Hc Hzero.
  destruct (newConnector_fields init c Hc) as (_ & _ & Hretries & _).
  rewrite Hzero in Hretries. cbn in Hretries.
  set (self := connectorOf c).
  assert (Hret : retries self = 0%Q) by exact Hretries.
  assert (Hlo : Qfloor (retries self) = 0) by (rewrite Hret; reflexivity).
  assert (Hhi : Qceiling (retries self) = 0) by (rewrite Hret; reflexivity).
  rewrite request_eq. cbv zeta.
  rewrite (attemptLoop_last send self opts (idempotenceKeyOf genUUID opts w) 0 None
             (afterKey genUUID opts w) Hlo Hhi).
  destruct (afterRequest_fields send
              (requestConfig opts (idempotenceKeyOf genUUID opts w))
              (afterKey genUUID opts w)) as (_ & _ & Htr).
  eexists _, _. split; [reflexivity|exact Htr].
Qed.

End ConstructionFacts.

(** ** The endpoint of the API *)

Lemma append_nil_l (s : string) : EmptyString +:+ s = s.
Proof. reflexivity. Qed.

Lemma append_cons (c : Ascii.ascii) (s t : string) : String c s +:+ t = String c (s +:+ t).
Proof. reflexivity. Qed.

Lemma append_slash_not_empty (t : string) : t +:+ "/" <> EmptyString.
Proof. destruct t; [rewrite append_nil_l|rewrite append_cons]; discriminate. Qed.

Lemma stripTrailingSlashes_decompose (s : string) :
  exists k : nat, s = stripTrailingSlashes s +:+ slashes k.
Proof.
  induction s as [|c rest [k IH]]; [exists 0%nat; reflexivity|].
  cbn [stripTrailingSlashes].
  destruct (stripTrailingSlashes rest) as [|c' kept] eqn:Hrest.
  - rewrite append_nil_l in IH.
    destruct (Ascii.eqb c slash) eqn:Hc.
    + apply Ascii.eqb_eq in Hc. subst c. exists (S k).
      rewrite append_nil_l. cbn [slashes]. congruence.
    + exists k. rewrite append_cons, append_nil_l. congruence.
  - exists k. rewrite append_cons. congruence.
Qed.

Lemma stripTrailingSlashes_no_slash (s t : string) :
  stripTrailingSlashes s <> t +:+ "/".
Proof.
  revert t. induction s as [|c rest IH]; intros t; cbn [stripTrailingSlashes].
  - intros H. symmetry in H. exact (append_slash_not_empty t H).
  - destruct (stripTrailingSlashes rest) as [|c' kept] eqn:Hrest.
    + destruct (Ascii.eqb c slash) eqn:Hc.
      * intros H. symmetry in H. exact (append_slash_not_empty t H).
      * destruct t as [|a t']; [rewrite append_nil_l|rewrite append_cons];
          intros H; inversion H; subst.
        -- rewrite Ascii.eqb_refl in Hc. discriminate.
        -- match goal with Ht : EmptyString = _ |- _ =>
             symmetry in Ht; exact (append_slash_not_empty _ Ht) end.
    + destruct t as [|a t']; [rewrite append_nil_l|rewrite append_cons];
        intros H; inversion H; subst.
      match goal with Hk : String _ _ = _ +:+ _ |- _ => exact (IH _ Hk) end.
Qed.

Lemma stripTrailingSlashes_idempotent (s : string) :
  stripTrailingSlashes (stripTrailingSlashes s) = stripTrailingSlashes s.
Proof.
  induction s as [|c rest IH]; [reflexivity|]. cbn [stripTrailingSlashes].
  destruct (stripTrailingSlashes rest) as [|c' kept] eqn:Hrest.
  - destruct (Ascii.eqb c slash) eqn:Hc; cbn; [reflexivity|]. rewrite Hc. reflexivity.
  - cbn [stripTrailingSlashes] in *. rewrite IH. reflexivity.
Qed.

Lemma stripTrailingSlashes_slashes (k : nat) : stripTrailingSlashes (slashes k) = EmptyString.
Proof.
  induction k as [|k IH]; [reflexivity|]. cbn [slashes stripTrailingSlashes].
  rewrite IH, Ascii.eqb_refl. reflexivity.
Qed.

(** X15.  The endpoint that a connector works with, which is also the
    base URL of its client, never ends with a slash.  It is the default
    URL when no endpoint or the empty string is given; otherwise it is
    the given endpoint without the slashes at its end, and giving it
    again changes nothing. *)
Theorem newConnector_endpoint (acceptsProxy : string -> bool)
    (init : Init.ConnectorOpts) (c : ConnectorInstance) :
  newConnector acceptsProxy init = inr c ->
  baseURL (axiosConfig c) = instEndpoint c /\
  (forall t, instEndpoint c <> t +:+ "/") /\
  (Init.endpoint init = None \/ Init.endpoint init = Some EmptyString ->
   instEndpoint c = "https://api.yookassa.ru/v3") /\
  (forall s, Init.endpoint init = Some s -> s <> EmptyString ->
     (exists k : nat, s = instEndpoint c +:+ slashes k) /\
     stripTrailingSlashes (instEndpoint c) = instEndpoint c).
Proof.
  intros Hc.
  destruct (newConnector_fields acceptsProxy init c Hc) as (Hend & Hbase & _ & _).
  split; [exact Hbase|]. rewrite Hend.
  split; [intros t; apply stripTrailingSlashes_no_slash|].
  split.
  - intros [-> | ->]; reflexivity.
  - intros s -> Hs. cbn [str_or].
    destruct (String.eqb s EmptyString) eqn:Heq.
    + apply String.eqb_eq in Heq. contradiction.
    + split; [apply stripTrailingSlashes_decompose|apply stripTrailingSlashes_idempotent].
Qed.

(** X16.  The endpoint of a connector is the empty string exactly when
    the endpoint given to the constructor consists of slashes only (at
    least one): such an endpoint does not fall back to the default. *)
Theorem endpoint_empty_iff (acceptsProxy : string -> bool)
    (init : Init.ConnectorOpts) (c : ConnectorInstance) :
  newConnector acceptsProxy init = inr c ->
  (instEndpoint c = EmptyString <->
   exists k : nat, Init.endpoint init = Some (slashes (S k))).
Proof.
  intros Hc.
  destruct (newConnector_fields acceptsProxy init c Hc) as (Hend & _).
  rewrite Hend. split.
  - destruct (Init.endpoint init) as [s|]; cbn [str_or]; [|discriminate].
    destruct (String.eqb s EmptyString) eqn:Heq; [discriminate|].
    intros Hstrip. destruct (stripTrailingSlashes_decompose s) as [k Hk].
    rewrite Hstrip, append_nil_l in Hk. subst s.
    destruct k as [|k]; [discriminate|]. eauto.
  - intros (k & ->). cbn [str_or slashes].
    replace (String.eqb (String slash (slashes k)) EmptyString) with false by reflexivity.
    apply (stripTrailingSlashes_slashes (S k)).
Qed.

(** ** The table of endpoints *)

(** X17.  The table has eleven operations; every path begins with a
    slash and does not end with one, every method is GET or POST, and no
    two operations share both method and path. *)
Theorem endpoints_routes :
  length allEndpoints = 11%nat /\
  Forall (fun ep =>
            (exists rest, ep_endpoint ep = "/" +:+ rest) /\
            stripTrailingSlashes (ep_endpoint ep) = ep_endpoint ep /\
            (ep_method ep = "GET" \/ ep_method ep = "POST"))
         allEndpoints /\
  NoDup ((fun ep => (ep_method ep, ep_endpoint ep)) <$> allEndpoints).
Proof.
  split; [reflexivity|]. split.
  - repeat (constructor;
            [split; [eexists; reflexivity|split; [reflexivity|auto]]|]).
    constructor.
  - apply (bool_decide_unpack _). vm_compute. exact I.
Qed.


(** * More facts at work *)

(** Always 503 with [retries = 2]: three requests, two waits. *)
Lemma attempts_bounded_witness :
  exists r w' evs,
    request (alwaysFails html503) fixedUUID (mkConnector 2%Q true) listPayments world0
    = (inr r, w') /\
    trace w' = trace world0 ++ evs /\
    (1 <= length (requestsOf evs))%nat /\
    (inject_Z (Z.of_nat (length (requestsOf evs))) <= 2 + 1)%Q /\
    length (requestsOf evs) = S (length (delaysOf evs)).
Proof.
  destruct (attempts_bounded (alwaysFails html503) fixedUUID (mkConnector 2%Q true)
              listPayments world0)
    as (r & w' & evs & Hrun & Htr & Hmin & Hmax & _ & Hwhole & _); [discriminate|].
  exists r, w', evs. repeat split; try assumption. apply Hwhole. reflexivity.
Defined.

(** Always 503 with [retries = 2.5]: three requests, and a wait after
    each of them. *)
Example attempts_with_fraction :
  let run := request (alwaysFails html503) fixedUUID (mkConnector (5 # 2) false)
               listPayments world0 in
  length (requestsOf (trace (snd run))) = 3%nat /\
  delaysOf (trace (snd run)) = [1000; 2000; 4000] /\
  totalWait (trace (snd run)) = 1000 * (2 ^ Qceiling (5 # 2) - 1) /\
  fst run = inr (BadApiResponse (exhaustedErrorData uuid0 (Some html503)) uuid0).
Proof. vm_compute. repeat split. Qed.

(** Two refused connections and then the payment. *)
Lemma ok_iff_last_request_resolved_witness :
  exists r w' evs,
    request (failsThenSucceeds 2 noResponse paymentCreated) fixedUUID (mkConnector 5%Q false)
      createPayment world0 = (inr r, w') /\
    trace w' = trace world0 ++ evs /\
    (success r = "OK" <->
     exists resp,
       outcomeAt (failsThenSucceeds 2 noResponse paymentCreated)
         (length (requestsOf evs) - 1) (transport world0)
         (requestConfig createPayment "order-17") = inr resp).
Proof.
  destruct (ok_iff_last_request_resolved (failsThenSucceeds 2 noResponse paymentCreated)
              fixedUUID (mkConnector 5%Q false) createPayment world0)
    as (r & w' & evs & Hrun & Htr & Hiff & _); [discriminate|].
  exists r, w', evs. repeat split; try assumption; apply Hiff.
Defined.

Lemma success_after_failures_witness :
  exists w' evs,
    request (failsThenSucceeds 2 noResponse paymentCreated) fixedUUID (mkConnector 5%Q false)
      createPayment world0
    = (inr (GoodApiResponse (data paymentCreated) "order-17"), w') /\
    trace w' = trace world0 ++ evs /\
    length (requestsOf evs) = 3%nat /\
    delaysOf evs = [1000; 2000].
Proof.
  apply (success_after_failures (failsThenSucceeds 2 noResponse paymentCreated) fixedUUID
           (mkConnector 5%Q false) createPayment world0 2 paymentCreated).
  - discriminate.
  - intros [|[|i]] Hi; [exists noResponse; split; reflexivity..|lia].
  - reflexivity.
Defined.

(** A 429 of the API at the last attempt: its body is the result. *)
Lemma structured_retryable_failure_witness :
  attemptLoop (alwaysFails api429) (mkConnector 2%Q false) listPayments uuid0 2 None world0
  = (inr (Returned (BadApiResponse tooManyRequestsBody uuid0)),
     afterRequest (alwaysFails api429) (requestConfig listPayments uuid0) world0).
Proof.
  apply (structured_retryable_failure (alwaysFails api429) (mkConnector 2%Q false)
           listPayments uuid0 2 None world0 api429); [discriminate|reflexivity..].
Defined.

(** A client with loggers answers as the plain client does. *)
Lemma sameAnswers_loggingClient {T : Type}
    (requestLogger : AxiosRequestConfig -> string)
    (responseLogger : AxiosResponse -> string)
    (errorLogger : AxiosError -> string)
    (send : T -> AxiosRequestConfig -> (AxiosError + AxiosResponse) * T) :
  sameAnswers (loggingClient requestLogger responseLogger errorLogger send) send
    (fun st t => fst st = t).
Proof. intros [t1 console] t2 cfg Heq. cbn in Heq. subst t2. split; reflexivity. Qed.

(** The same call with [debug] and a client that logs, and without
    [debug] and the plain client. *)
Lemma debug_only_adds_log_lines_witness :
  let client := loggingClient logRequest logResponse logError (alwaysFails html503) in
  exists r w1' w2' evs1 evs2,
    request client fixedUUID (mkConnector 3%Q true) listPayments (mkWorld (0%nat, []) tt [])
    = (inr r, w1') /\
    request (alwaysFails html503) fixedUUID (mkConnector 3%Q false) listPayments world0
    = (inr r, w2') /\
    fst (transport w1') = transport w2' /\
    trace w1' = evs1 /\
    trace w2' = evs2 /\
    withoutLogs evs1 = withoutLogs evs2 /\
    length (logsOf evs1) = length (delaysOf evs1) /\
    length (logsOf evs2) = 0%nat.
Proof.
  intros client.
  destruct (debug_only_adds_log_lines client (alwaysFails html503) fixedUUID
              (fun st t => fst st = t)
              (mkConnector 3%Q true) (mkConnector 3%Q false) listPayments
              (mkWorld (0%nat, []) tt []) world0)
    as (r & w1' & w2' & evs1 & evs2 & H1 & H2 & HR & _ & Htr1 & Htr2 & Hwl & Hl1 & Hl2);
    [apply sameAnswers_loggingClient|reflexivity..|].
  exists r, w1', w2', evs1, evs2. repeat split; assumption.
Defined.

(** What is printed in that call with [debug]: the three lines of
    [request], one before each wait, and on the side of the client two
    lines for each of the four requests. *)
Example debug_console :
  let client := loggingClient logRequest logResponse logError (alwaysFails html503) in
  let run := request client fixedUUID (mkConnector 3%Q true) listPayments
               (mkWorld (0%nat, []) tt []) in
  logsOf (trace (snd run))
  = [ "[YooKassa] Retry attempt 1/3, waiting 1000ms...";
      "[YooKassa] Retry attempt 2/3, waiting 2000ms...";
      "[YooKassa] Retry attempt 3/3, waiting 4000ms..." ] /\
  length (requestsOf (trace (snd run))) = 4%nat /\
  length (snd (transport (snd run))) = 8%nat.
Proof. vm_compute. repeat split. Qed.

Lemma no_attempt_with_negative_retries_witness :
  exists d w',
    request (alwaysFails html503) fixedUUID (mkConnector (-1)%Q true) listPayments world0
    = (inr (BadApiResponse d uuid0), w') /\
    trace w' = [] /\
    field "code" d = Some (JString "RETRY_EXHAUSTED").
Proof.
  destruct (no_attempt_with_negative_retries (alwaysFails html503) fixedUUID
              (mkConnector (-1)%Q true) listPayments world0)
    as (d & w' & Hrun & Htr & _ & _ & Hcode & _); [reflexivity|].
  exists d, w'. repeat split; assumption.
Defined.

(** Always 429 with the error object of the API.  With [retries = 2]:
    three requests, two waits, and the body of the API as the error.
    With [retries = 2.5]: three requests, three waits, and the error
    built after the loop, with the code of the last failure. *)
Lemma exhaustion_after_retryable_failures_witness :
  (exists fields w' evs,
      request (alwaysFails api429) fixedUUID (mkConnector 2%Q false) listPayments world0
      = (inr (BadApiResponse (JObject fields) uuid0), w') /\
      JObject fields = tooManyRequestsBody /\
      trace w' = trace world0 ++ evs /\
      Z.of_nat (length (requestsOf evs)) = 3 /\
      delaysOf evs = [1000; 2000]) /\
  (exists fields w' evs,
      request (alwaysFails api429) fixedUUID (mkConnector (5 # 2) false) listPayments world0
      = (inr (BadApiResponse (JObject fields) uuid0), w') /\
      fields !! "code" = Some (JString "ERR_BAD_REQUEST") /\
      trace w' = trace world0 ++ evs /\
      Z.of_nat (length (requestsOf evs)) = 3 /\
      delaysOf evs = [1000; 2000; 4000]).
Proof.
  split.
  - destruct (exhaustion_after_retryable_failures (alwaysFails api429) fixedUUID
                (mkConnector 2%Q false) listPayments world0)
      as (e & fields & w' & evs & He & Hrun & _ & Htr & Hlen & Hbody & _ & Hdel).
    + discriminate.
    + intros n _. exists api429. split; [apply outcomeAt_alwaysFails|reflexivity].
    + rewrite outcomeAt_alwaysFails in He. inversion He; subst e.
      exists fields, w', evs. repeat split; try assumption.
      apply Hbody. reflexivity.
  - destruct (exhaustion_after_retryable_failures (alwaysFails api429) fixedUUID
                (mkConnector (5 # 2) false) listPayments world0)
      as (e & fields & w' & evs & He & Hrun & _ & Htr & Hlen & Hbody & Hdel).
    + discriminate.
    + intros n _. exists api429. split; [apply outcomeAt_alwaysFails|reflexivity].
    + rewrite outcomeAt_alwaysFails in He. inversion He; subst e.
      exists fields, w', evs. repeat split; try assumption.
      inversion Hbody. reflexivity.
Defined.

(** Built with the credentials only, against a connection that is
    always refused. *)
Lemma default_retries_bounds_witness :
  exists c,
    built (minimalInit "123456" "test_secret_key") = Some c /\
    exists r w' evs,
      request (alwaysFails noResponse) fixedUUID (connectorOf c) listPayments world0
      = (inr r, w') /\
      trace w' = trace world0 ++ evs /\
      (length (requestsOf evs) <= 6)%nat /\
      totalWait evs <= 31000.
Proof.
  eexists. split; [reflexivity|].
  apply (default_retries_bounds (alwaysFails noResponse) fixedUUID anyProxy
           (minimalInit "123456" "test_secret_key")); reflexivity.
Defined.

Lemma zero_retries_single_attempt_witness :
  exists c,
    built singleShotInit = Some c /\
    exists r w',
      request (alwaysFails html503) fixedUUID (connectorOf c) listPayments world0
      = (inr r, w') /\
      trace w' = [EvRequest (requestConfig listPayments uuid0)].
Proof.
  eexists. split; [reflexivity|].
  apply (zero_retries_single_attempt (alwaysFails html503) fixedUUID anyProxy
           singleShotInit); reflexivity.
Defined.

(** An endpoint written with two slashes at its end. *)
Lemma newConnector_endpoint_witness :
  exists c,
    built slashedInit = Some c /\
    instEndpoint c = "https://proxy.example.com/yookassa/v3" /\
    baseURL (axiosConfig c) = instEndpoint c /\
    forall t, instEndpoint c <> t +:+ "/".
Proof.
  eexists. split; [reflexivity|]. split; [reflexivity|].
  destruct (newConnector_endpoint anyProxy slashedInit _ eq_refl) as (Hbase & Hno & _).
  split; [exact Hbase|exact Hno].
Defined.

(** An endpoint of two slashes: the base URL is empty. *)
Lemma endpoint_empty_iff_witness :
  exists c, built onlySlashesInit = Some c /\ instEndpoint c = EmptyString.
Proof.
  eexists. split; [reflexivity|].
  apply (endpoint_empty_iff anyProxy onlySlashesInit _ eq_refl).
  exists 1%nat. reflexivity.
Defined.
